(** * CityDreamer dataset generator: rasterisation rules, mask cleaning,
      patch extraction, camera-track alignment and tile fetching.

    A shallow embedding of [utils/dataset_generator.py] and
    [utils/osm_image_fetcher.py].  Python dictionaries of tags are finite
    maps from strings to strings, rasters (numpy 2-D arrays) are lists of
    rows, Python exceptions are the [Raise] case of [result], and the
    floating-point numbers of the camera track are idealised as exact
    rationals. *)

From Stdlib Require Import ZArith QArith Qfield Ascii.
From stdpp Require Import gmap strings list fin_maps.

Local Open Scope Z_scope.

(** ** Exceptions and results *)

Inductive pyerr : Type :=
| UnknownMapName (map_name : string)   (* raise Exception("Unknown map name: %s") *)
| AssertionError                        (* a failed [assert] *)
| ValueError                            (* float() on a malformed string *)
| IndexError.                           (* boolean mask of the wrong shape *)

Inductive result (A : Type) : Type :=
| Ok (a : A)
| Raise (e : pyerr).
Arguments Ok {A} a.
Arguments Raise {A} e.

#[global] Instance result_ret : MRet result := λ A a, Ok a.
#[global] Instance result_bind : MBind result := λ A B f x,
  match x with
  | Ok a => f a
  | Raise e => Raise e
  end.

(** ** Feature classifier *)

Abbreviation tagmap := (gmap string string).

(** [_tag_equals(tags, key, values=None)]: [values = None] is the Python
    default argument. *)
Definition _tag_equals (tags : tagmap) (key : string)
    (values : option (list string)) : bool :=
  match tags !! key with
  | None => false
  | Some v =>
      match values with
      | None => true
      | Some vs => bool_decide (v ∈ vs)
      end
  end.

Definition _get_highway_color (map_name : string) (highway_tags : tagmap)
    : result Z :=
  if decide (map_name = "height_field") then Ok 0
  else if decide (map_name = "seg_map") then Ok 1
  else Raise (UnknownMapName map_name).

Section Classifier.
(** [int(float(s) + 0.5)] for the string [s] of a [height] tag; [None]
    when [float(s)] raises.  Floating-point parsing is left abstract. *)
Variable int_float_half : string → option Z.

(** The classifier returns [Ok None] for Python's [None] (do not paint). *)
Definition _get_footprint_color (map_name : string) (footprint_tags : tagmap)
    : result (option Z) :=
  if decide (map_name = "height_field") then
    if _tag_equals footprint_tags "role" (Some ["inner"]) then Ok None
    else if _tag_equals footprint_tags "building" (Some ["roof"]) then Ok None
    else if _tag_equals footprint_tags "landuse" (Some ["construction"])
    then Ok (Some 10)
    else
      match footprint_tags !! "height" with
      | None => Raise AssertionError
      | Some s =>
          match int_float_half s with
          | Some v => Ok (Some v)
          | None => Raise ValueError
          end
      end
  else if decide (map_name = "seg_map") then
    if _tag_equals footprint_tags "role" (Some ["inner"]) then Ok (Some 2)
    else if _tag_equals footprint_tags "building" None then Ok (Some 2)
    else if _tag_equals footprint_tags "landuse" (Some ["construction"])
    then Ok (Some 4)
    else Ok (Some 0)
  else if decide (map_name = "footprint_contour") then
    if _tag_equals footprint_tags "building" None then Ok (Some 1)
    else Ok (Some 0)
  else Raise (UnknownMapName map_name).
End Classifier.


(** ** Rasters *)

(** A numpy 2-D array is the list of its rows; [get2 m r c] is [m[r, c]]
    for in-range non-negative indices. *)
Abbreviation raster := (list (list Z)).

Definition get2 {A} (m : list (list A)) (r c : nat) : option A :=
  row ← m !! r; row !! c.

(** In-place write [m[r, c] = v]; drawing outside the array is clipped. *)
Definition set2 {A} (m : list (list A)) (r c : nat) (v : A) : list (list A) :=
  alter (<[c:=v]>) r m.

Definition row_lengths {A} (m : list (list A)) : list nat := length <$> m.

Definition uint8_raster (m : raster) : Prop :=
  Forall (Forall (λ v, 0 ≤ v ≤ 255)) m.

(** [a[mask != 0] = v] : boolean-mask assignment; numpy raises
    [IndexError] when the mask has another shape than the array. *)
Definition assign_where (a mask : raster) (v : Z) : result raster :=
  if decide (row_lengths a = row_lengths mask)
  then Ok (zip_with (zip_with (λ x k, if decide (k ≠ 0) then v else x)) a mask)
  else Raise IndexError.

(** [a[a == old] = new]. *)
Definition replace_eq (a : raster) (old new : Z) : raster :=
  map (map (λ x, if decide (x = old) then new else x)) a.

(** Element-wise product [a * b] of two arrays of one shape (numpy
    raises when the shapes cannot be matched). *)
Definition mul_arrays (a b : raster) : result raster :=
  if decide (row_lengths a = row_lengths b)
  then Ok (zip_with (zip_with Z.mul) a b)
  else Raise ValueError.

(** ** Mask cleaner *)

Module MaskCleaner.

Definition N_PIXELS_THRES : nat := 96.

(** Signed-index read: [None] outside the array (the border). *)
Definition getZ (m : raster) (r c : Z) : option Z :=
  if decide (0 ≤ r ∧ 0 ≤ c) then get2 m (Z.to_nat r) (Z.to_nat c) else None.

Definition offsets5 : list Z := [-2; -1; 0; 1; 2].

(** The 5x5 neighbourhood of [(r, c)], anchored at its centre. *)
Definition window5 (r c : nat) : list (Z * Z) :=
  dr ← offsets5; dc ← offsets5; [(Z.of_nat r + dr, Z.of_nat c + dc)].

(** [cv2.erode(mask, np.ones((5, 5), np.uint8))] with OpenCV's defaults:
    one iteration, anchor at the kernel centre, and a constant border
    that never lowers the minimum (so border pixels are skipped and the
    fold starts from the largest uint8). *)
Definition erode_step (m : raster) (p : Z * Z) (acc : Z) : Z :=
  match getZ m p.1 p.2 with
  | Some v => Z.min v acc
  | None => acc
  end.

Definition erode_px (m : raster) (r c : nat) : Z :=
  foldr (erode_step m) 255 (window5 r c).

Definition cv2_erode5 (m : raster) : raster :=
  imap (λ r row, imap (λ c _, erode_px m r c) row) m.

(** *** Connected components, 4-connectivity

    [cv2.connectedComponentsWithStats(mask, connectivity=4)]: label 0 is
    the background (zero pixels), every 4-connected set of non-zero
    pixels gets one label in [1 .. n-1], and the last column of [stats]
    is the pixel count of each label.  The labelling is computed by a
    raster scan that flood-fills each component from its first pixel. *)

Definition nonzero (v : Z) : bool := bool_decide (v ≠ 0).

Definition is_fg (m : raster) (p : nat * nat) : bool :=
  match get2 m p.1 p.2 with
  | Some v => nonzero v
  | None => false
  end.

Definition unlabelled (lab : list (list nat)) (p : nat * nat) : bool :=
  match get2 lab p.1 p.2 with
  | Some O => true
  | _ => false
  end.

Definition neighbours4 (p : nat * nat) : list (nat * nat) :=
  let '(r, c) := p in
  [(S r, c); (r, S c)]
    ++ match r with S r' => [(r', c)] | O => [] end
    ++ match c with S c' => [(r, c')] | O => [] end.

Fixpoint flood (fuel : nat) (m : raster) (lab : list (list nat))
    (work : list (nat * nat)) (l : nat) : list (list nat) :=
  match fuel with
  | O => lab
  | S fuel' =>
      match work with
      | [] => lab
      | p :: work' =>
          if is_fg m p && unlabelled lab p
          then flood fuel' m (set2 lab p.1 p.2 l) (neighbours4 p ++ work') l
          else flood fuel' m lab work' l
      end
  end.

(** All pixel coordinates in raster-scan order. *)
Definition pixels {A} (m : list (list A)) : list (nat * nat) :=
  mjoin (imap (λ r row, imap (λ c _, (r, c)) row) m).

Definition n_pixels {A} (m : list (list A)) : nat := sum_list (row_lengths m).

(** Every labelled pixel pushes four neighbours and every step pops one
    entry, so [4 * n_pixels + 1] steps exhaust any work list. *)
Definition flood_fuel (m : raster) : nat := 4 * n_pixels m + 1.

Definition scan_step (m : raster) (st : list (list nat) * nat)
    (p : nat * nat) : list (list nat) * nat :=
  let '(lab, next) := st in
  if is_fg m p && unlabelled lab p
  then (flood (flood_fuel m) m lab [p] next, S next)
  else (lab, next).

Definition label_components (m : raster) : list (list nat) * nat :=
  foldl (scan_step m) (map (map (λ _, O)) m, 1%nat) (pixels m).

Definition count2 {A} (P : A → bool) (m : list (list A)) : nat :=
  sum_list (map (λ row, length (filter (λ x, P x = true) row)) m).

(** The number of non-zero pixels of a mask. *)
Definition n_foreground (m : raster) : nat := count2 nonzero m.

(** Returns [(retval, labels, stats[:, -1])]. *)
Definition connectedComponentsWithStats (m : raster)
    : nat * list (list nat) * list nat :=
  let '(lab, n) := label_components m in
  (n, lab, map (λ l, count2 (Nat.eqb l) lab) (seq 0 n)).

(** [np.where(stats[:, -1] <= N_PIXELS_THRES)[0]]. *)
Definition where_le (areas : list nat) (thres : nat) : list nat :=
  (imap (λ i a, (i, a)) areas) ≫= λ ia,
    if decide (ia.2 ≤ thres)%nat then [ia.1] else [].

Definition _remove_mask_outliers (mask : raster) : raster :=
  let mask := cv2_erode5 mask in
  let '(_, labels, areas) := connectedComponentsWithStats mask in
  let ignored_indexes := where_le areas N_PIXELS_THRES in
  let ignored_mask := map (map (λ l, bool_decide (l ∈ ignored_indexes))) labels in
  zip_with (zip_with (λ v (ig : bool), v * (if negb ig then 1 else 0)))
    mask ignored_mask.

(** *** Invariants of the labelling *)

(** Labels sit on non-zero pixels only and stay below [bound]. *)
Definition lab_inv (m : raster) (lab : list (list nat)) (bound : nat) : Prop :=
  row_lengths lab = row_lengths m
  ∧ ∀ r c l, get2 lab r c = Some l → l ≠ O →
             is_fg m (r, c) = true ∧ (l < bound)%nat.

Definition labelled (lab : list (list nat)) (p : nat * nat) : Prop :=
  ∃ l, get2 lab p.1 p.2 = Some l ∧ l ≠ O.

(** The non-zero pixels that have no label yet. *)
Definition pending (m : raster) (lab : list (list nat)) : nat :=
  length (filter (λ p, is_fg m p && unlabelled lab p = true) (pixels m)).

(** The scan invariant: the labelling is sound, and every non-zero
    pixel visited so far carries a label. *)
Definition scan_inv (m : raster) (visited : list (nat * nat))
    (st : list (list nat) * nat) : Prop :=
  lab_inv m st.1 st.2 ∧ (1 ≤ st.2)%nat
  ∧ ∀ p, p ∈ visited → is_fg m p = true → labelled st.1 p.

End MaskCleaner.

Import MaskCleaner.

(** A labelling is closed when every non-zero neighbour of a labelled pixel
    carries the same label; during a flood fill with label [l] the
    neighbours still to be visited may wait in the work list. *)
Definition linked (m : raster) (lab : list (list nat))
    (work : list (nat * nat)) (l : nat) : Prop :=
  ∀ p q k, get2 lab p.1 p.2 = Some k → k ≠ O →
           q ∈ neighbours4 p → is_fg m q = true →
           get2 lab q.1 q.2 = Some k ∨ (k = l ∧ q ∈ work).

Definition closed (m : raster) (lab : list (list nat)) : Prop :=
  ∀ p q k, get2 lab p.1 p.2 = Some k → k ≠ O →
           q ∈ neighbours4 p → is_fg m q = true →
           get2 lab q.1 q.2 = Some k.

(** An [h] x [w] mask that is 255 on the [bh] x [bw] rectangle whose top
    left corner is [(r0, c0)], and 0 elsewhere. *)
Definition blob_in (h w r0 c0 bh bw : nat) : raster :=
  imap (λ r _, imap (λ c _,
    if decide (r0 ≤ r < r0 + bh ∧ c0 ≤ c < c0 + bw)%nat then 255 else 0)
    (replicate w ())) (replicate h ()).

(** ** Layer compositor *)

(** Modelled from the spec: [utils/osm_helper.py] ([get_empty_map],
    [plot_highways], [plot_footprints] and the polygon and line
    rasterisation under them) is not part of the sources.  Following 4.1,
    4.3 and 6(e)-(f) of the specification, a feature carries its tags,
    the pixels its geometry covers and the pixels its outline passes
    through, features are painted in the order given, each with the value
    the colour callback returns for its tags, and a footprint classified
    as "skip" is not painted.  Nothing relates the outline to the covered
    pixels: the width of the stroke is the rasteriser's. *)
Record feature : Type := Feature {
  tags : tagmap;
  cover : list (nat * nat);     (* (row, column) of every pixel filled *)
  outline : list (nat * nat)    (* (row, column) of every pixel stroked *)
}.

Definition get_empty_map (h w : nat) : raster := replicate h (replicate w 0).

Definition fill (map_img : raster) (ps : list (nat * nat)) (v : Z) : raster :=
  foldl (λ m p, set2 m p.1 p.2 v) map_img ps.

Fixpoint plot_highways (map_name : string)
    (colors : string → tagmap → result Z)
    (map_img : raster) (highways : list feature) : result raster :=
  match highways with
  | [] => Ok map_img
  | hw :: rest =>
      v ← colors map_name (tags hw);
      plot_highways map_name colors (fill map_img (cover hw) v) rest
  end.

Fixpoint plot_footprints (map_name : string)
    (colors : string → tagmap → result (option Z))
    (map_img : raster) (footprints : list feature) : result raster :=
  match footprints with
  | [] => Ok map_img
  | fp :: rest =>
      color ← colors map_name (tags fp);
      match color with
      | None => plot_footprints map_name colors map_img rest
      | Some v => plot_footprints map_name colors (fill map_img (cover fp) v) rest
      end
  end.

(** Modelled from the spec: [plot_footprints] called with [resolution],
    as [get_osm_images] does for the footprint contour only (lines
    168-176).  The contour marks building outlines only (glossary of the
    specification), so this call strokes each footprint along its outline
    where the call without [resolution] fills it. *)
Fixpoint plot_footprint_outlines (map_name : string)
    (colors : string → tagmap → result (option Z))
    (map_img : raster) (footprints : list feature) : result raster :=
  match footprints with
  | [] => Ok map_img
  | fp :: rest =>
      color ← colors map_name (tags fp);
      match color with
      | None => plot_footprint_outlines map_name colors map_img rest
      | Some v =>
          plot_footprint_outlines map_name colors
            (fill map_img (outline fp) v) rest
      end
  end.

(** The footprint as the stroking call sees it. *)
Definition stroked (fp : feature) : feature :=
  Feature (tags fp) (outline fp) (outline fp).

(** A decoded tile image: rows of (blue, green, red) bytes. *)
Abbreviation bgr_image := (list (list (Z * Z * Z))).

(** [cv2.inRange(img, lb, ub)]: 255 where every channel lies in its
    closed range, 0 elsewhere. *)
Definition cv2_inRange (img : bgr_image) (lb ub : Z * Z * Z) : raster :=
  map (map (λ px : Z * Z * Z,
    if decide (lb.1.1 ≤ px.1.1 ≤ ub.1.1 ∧ lb.1.2 ≤ px.1.2 ≤ ub.1.2
               ∧ lb.2 ≤ px.2 ≤ ub.2)
    then 255 else 0)) img.

(** A 10 x 10 tile of water colour. *)
Definition water_tile : bgr_image := replicate 10 (replicate 10 (220, 220, 200)).

(** A 10 x 10 tile of a colour that lies in the water range and in the
    green range at once. *)
Definition shore_tile : bgr_image := replicate 10 (replicate 10 (219, 220, 218)).

(** [a.shape] of a 2-D array. *)
Definition shape {A} (m : list (list A)) : nat * nat :=
  (length m, from_option length O (head m)).

(** [mask[r, c] != 0] for an optional environment mask. *)
Definition mask_on (mask : option raster) (r c : nat) : bool :=
  match mask with
  | Some m =>
      match get2 m r c with
      | Some k => bool_decide (k ≠ 0)
      | None => false
      end
  | None => false
  end.

(** Every pixel of the raster satisfies [P]. *)
Definition all_px (P : Z → Prop) (m : raster) : Prop :=
  ∀ r c x, get2 m r c = Some x → P x.

Section Compositor.
Variable int_float_half : string → option Z.
(** [cv2.resize(src, dsize)] with [dsize = (width, height)];
    interpolation is left abstract. *)
Variable cv2_resize : raster → nat * nat → raster.

Definition get_coast_zones (tile_img : bgr_image) (img_size : nat * nat)
    : raster :=
  let water_lb := (219, 219, 195) in
  let water_ub := (235, 235, 219) in
  let mask := cv2_resize (cv2_inRange tile_img water_lb water_ub)
                (img_size.2, img_size.1) in
  _remove_mask_outliers mask.

Definition get_green_lands (tile_img : bgr_image) (seg_map : raster)
    : result raster :=
  let green_lb := (209, 217, 217) in
  let green_ub := (219, 236, 233) in
  let uncategoried := map (map (λ x, if decide (x = 0) then 1 else 0)) seg_map in
  let mask := cv2_resize (cv2_inRange tile_img green_lb green_ub)
                ((shape seg_map).2, (shape seg_map).1) in
  mul_arrays (_remove_mask_outliers mask) uncategoried.

(** Lines 135-152 of [get_osm_images]: highways, then the two
    environment masks when the tile image exists.  Returns
    [(seg_map, coast_zones, green_lands)]. *)
Definition seg_map_before_footprints (highways : list feature)
    (xy_bounds : nat * nat) (osm_tile_img : option bgr_image)
    : result (raster * option raster * option raster) :=
  let seg_map := get_empty_map xy_bounds.1 xy_bounds.2 in
  seg_map ← plot_highways "seg_map" _get_highway_color seg_map highways;
  match osm_tile_img with
  | None => Ok (seg_map, None, None)
  | Some tile_img =>
      green_lands ← get_green_lands tile_img seg_map;
      seg_map ← assign_where seg_map green_lands 3;
      let coast_zones := get_coast_zones tile_img (shape seg_map) in
      seg_map ← assign_where seg_map coast_zones 5;
      Ok (seg_map, Some coast_zones, Some green_lands)
  end.

(** Lines 180-194: the height field before the footprints. *)
Definition height_field_before_footprints (highways : list feature)
    (xy_bounds : nat * nat) (coast_zones green_lands : option raster)
    : result raster :=
  let height_field := get_empty_map xy_bounds.1 xy_bounds.2 in
  height_field ←
    plot_highways "height_field" _get_highway_color height_field highways;
  let height_field := replace_eq height_field 0 4 in
  height_field ← match coast_zones with
                 | Some cz => assign_where height_field cz 0
                 | None => Ok height_field
                 end;
  match green_lands with
  | Some gl => assign_where height_field gl 8
  | None => Ok height_field
  end.

(** Lines 180-203. *)
Definition compose_height_field (highways footprints : list feature)
    (xy_bounds : nat * nat) (coast_zones green_lands : option raster)
    : result raster :=
  height_field ←
    height_field_before_footprints highways xy_bounds coast_zones green_lands;
  plot_footprints "height_field" (_get_footprint_color int_float_half)
    height_field footprints.

(** [get_osm_images] on the parsed features, the pixel bounding box
    [(height, width)] and the tile image ([None] when the file does not
    exist).  Returns [(height_field, seg_map, footprint_contour)]. *)
Definition get_osm_images (highways footprints : list feature)
    (xy_bounds : nat * nat) (osm_tile_img : option bgr_image)
    : result (raster * raster * raster) :=
  env ← seg_map_before_footprints highways xy_bounds osm_tile_img;
  let '(seg_map, coast_zones, green_lands) := env in
  seg_map ← plot_footprints "seg_map" (_get_footprint_color int_float_half)
              seg_map footprints;
  let seg_map := replace_eq seg_map 0 6 in
  let footprint_contour := get_empty_map xy_bounds.1 xy_bounds.2 in
  footprint_contour ←
    plot_footprint_outlines "footprint_contour"
      (_get_footprint_color int_float_half) footprint_contour footprints;
  height_field ←
    compose_height_field highways footprints xy_bounds coast_zones green_lands;
  Ok (height_field, seg_map, footprint_contour).
End Compositor.

(** ** Patch extraction *)

Inductive log_record : Type :=
| HorizontalCenterError (cx : Z)  (* "The horizontal center is not located at %d as expected" *)
| VerticalCenterError (cy : Z).   (* "The vertical center is not located at %d as expected" *)

(** Python's normalisation of one slice bound for a sequence of length [n]. *)
Definition slice_bound (n i : Z) : Z :=
  if decide (i < 0) then Z.max (i + n) 0 else Z.min i n.

(** [l[s:e]]. *)
Definition py_slice {A} (l : list A) (s e : Z) : list A :=
  let n := Z.of_nat (length l) in
  let s' := slice_bound n s in
  let e' := slice_bound n e in
  take (Z.to_nat (e' - s')) (drop (Z.to_nat s') l).

(** [v.astype(np.int32)] of one value: the low 32 bits, read as a signed
    integer. *)
Definition np_int32 (v : Z) : Z := (v + 2 ^ 31) mod 2 ^ 32 - 2 ^ 31.

(** Every pixel of the raster is an [int32]. *)
Definition int32_raster (img : raster) : Prop :=
  ∀ r c v, get2 img r c = Some v → - 2 ^ 31 ≤ v < 2 ^ 31.

(** Returns the patch, cast to [int32], and the records logged. *)
Definition _get_img_patch (img : raster) (cx cy patch_size : Z)
    : raster * list log_record :=
  let h := Z.of_nat (shape img).1 in
  let w := Z.of_nat (shape img).2 in
  let x_s := cx - patch_size / 2 in
  let x_e := cx + patch_size / 2 in
  let h_s := cy - patch_size / 2 in
  let h_e := cy + patch_size / 2 in
  let '(x_s, x_e, log_x) :=
    if decide (x_s < 0 ∨ w ≤ x_e)
    then (if decide (x_s < 0) then 0 else x_s,
          if decide (w ≤ x_e) then 0 else x_e,
          [HorizontalCenterError cx])
    else (x_s, x_e, []) in
  let '(h_s, h_e, log_y) :=
    if decide (h_s < 0 ∨ h ≤ h_e)
    then (if decide (h_s < 0) then 0 else h_s,
          if decide (h ≤ h_e) then 0 else h_e,
          [VerticalCenterError cy])
    else (h_s, h_e, []) in
  (map (λ row, np_int32 <$> py_slice row x_s x_e) (py_slice img h_s h_e),
   log_x ++ log_y).

(** ** Camera track aligner *)

Record coordinate : Type := Coordinate {
  longitude : Q;
  latitude : Q;
  altitude : Q
}.

Record position : Type := Position {
  pos_x : Q;
  pos_y : Q;
  pos_z : Q
}.

Definition Qsum (l : list Q) : Q := foldr Qplus 0%Q l.

(** [np.mean(l)] in exact arithmetic. *)
Definition np_mean (l : list Q) : Q :=
  (Qsum l / inject_Z (Z.of_nat (length l)))%Q.

Section Aligner.
(** [utils.osm_helper.lnglat2xy(lng, lat, resolution, zoom_level, dtype)],
    the external projection; the Boolean is [dtype=float]. *)
Variable lnglat2xy : Q → Q → Q → Z → bool → Q * Q.

Variable resolution : Q.
Variable zoom_level : Z.

(** [(cx, cy)] of the camera target (line 340). *)
Definition target_xy (center : coordinate) : Q * Q :=
  lnglat2xy (longitude center) (latitude center) resolution zoom_level false.

(** [(vol_cx, vol_cy, vol_cz)] (line 379). *)
Definition vol_center (patch_size : Z) : Q * Q * Q :=
  (inject_Z ((patch_size - 1) / 2), inject_Z ((patch_size - 1) / 2), 0%Q).

(** The first loop (lines 383-395): [gcp["position"]] of every frame. *)
Definition relative_positions (center : coordinate)
    (poses : list coordinate) : list position :=
  let '(cx, cy) := target_xy center in
  map (λ gcp,
    let '(x, y) :=
      lnglat2xy (longitude gcp) (latitude gcp) resolution zoom_level true in
    Position (x - cx)%Q (y - cy)%Q (altitude gcp)) poses.

(** [offset] (lines 396-397). *)
Definition track_offset (center : coordinate) (poses : list coordinate)
    : Q * Q :=
  let ps := relative_positions center poses in
  (np_mean (map pos_x ps), np_mean (map pos_y ps)).

(** The positions the second loop (lines 401-403) leaves in every frame,
    which become the camera origins of the renderer. *)
Definition aligned_positions (center : coordinate)
    (poses : list coordinate) (patch_size : Z) : list position :=
  let '(vol_cx, vol_cy, _) := vol_center patch_size in
  let offset := track_offset center poses in
  map (λ p,
    Position (pos_x p - (offset.1 - vol_cx))%Q
             (pos_y p - (offset.2 - vol_cy))%Q
             (pos_z p))
    (relative_positions center poses).
End Aligner.

(** ** Tile fetcher *)

Module TileFetcher.

(** What one download attempt does to the tile file. The payload is what
    [cv2.imread] makes of the file afterwards: [None] when it does not
    decode. *)
Inductive fetch_outcome : Type :=
| GetRaises                                    (* [session.get] raises: no file *)
| CopyRaises (decoded : option bgr_image)      (* file created, copy raises *)
| Stored (decoded : option bgr_image).         (* body written to the file *)

Record world : Type := World {
  disk : option (option bgr_image);  (* the tile file, when it exists *)
  attempts : nat;                    (* downloads tried so far *)
  slept : nat;                       (* [time.sleep(0.5)] calls so far *)
  logged : nat                       (* exceptions logged so far *)
}.

Section Server.
(** The outcome of the [n]-th download attempt. *)
Variable server : nat → fetch_outcome.

Definition cv2_imread (w : world) : option bgr_image :=
  match disk w with
  | Some (Some img) => Some img
  | _ => None
  end.

Definition get_tile_img (w : world) : option bgr_image * world :=
  let w' :=
    match disk w with
    | Some _ => w
    | None =>
        match server (attempts w) with
        | GetRaises =>
            World None (S (attempts w)) (S (slept w)) (S (logged w))
        | CopyRaises d =>
            World (Some d) (S (attempts w)) (S (slept w)) (S (logged w))
        | Stored d =>
            World (Some d) (S (attempts w)) (S (slept w)) (logged w)
        end
    end in
  (cv2_imread w', w').

(** [while osm_img_patch is None: osm_img_patch = get_tile_img(...)]
    (lines 109-111 of [main]), run for at most [fuel] iterations;
    [None] when the loop is still running after them. *)
Fixpoint fetch_patch (fuel : nat) (w : world)
    : option (bgr_image * world) :=
  match fuel with
  | O => None
  | S fuel' =>
      match get_tile_img w with
      | (Some img, w') => Some (img, w')
      | (None, w') => fetch_patch fuel' w'
      end
  end.
End Server.

Definition fresh : world := World None 0 0 0.
Definition always_failing : nat → fetch_outcome := λ _, GetRaises.

End TileFetcher.

(** ** Google Earth projects of an OSM file *)

Definition dash : ascii := "-"%char.

(** [s.split("-")]. *)
Fixpoint split_dash (s : string) : list string :=
  match s with
  | EmptyString => [EmptyString]
  | String ch rest =>
      if decide (ch = dash) then EmptyString :: split_dash rest
      else match split_dash rest with
           | field :: fields => String ch field :: fields
           | [] => [String ch EmptyString]
           end
  end.

(** [get_google_earth_projects] on the base name of the OSM file and the
    listing of the Google Earth directory. *)
Definition get_google_earth_projects (osm_basename : string)
    (ge_projects : list string) : result (list string) :=
  let osm_info := split_dash osm_basename in
  match osm_info !! 0%nat, osm_info !! 1%nat with
  | Some osm_country, Some osm_city =>
      Ok (filter (λ gp, String.prefix (osm_country +:+ "-" +:+ osm_city) gp = true)
            ge_projects)
  | _, _ => Raise IndexError
  end.

(** ** Tile canvas of the fetcher *)

Module TileGrid.

Definition OSM_TILE_SIZE : Z := 256.

(** What [main] of the fetcher computes for one OSM file from the pixel
    bounds [bounds["SW"]] and [bounds["NE"]], both given as [(x, y)]. *)
Record grid : Type := Grid {
  n_x_imgs : Z;
  n_y_imgs : Z;
  width : Z;
  height : Z;
  pastes : list (Z * Z * Z * Z);   (* (i, j, offset_x, offset_y), fetch order *)
  tl_offset : Z * Z;               (* (x, y) *)
  br_offset : Z * Z                (* (x, y) *)
}.

(** [range(a, b)]. *)
Definition py_range (a b : Z) : list Z := seqZ a (b - a).

(** The three [assert] statements of [main], in program order. *)
Inductive assertion : Type :=
| BoundsOrdered      (* lines 92-95 *)
| IndexesOrdered     (* line 96 *)
| OffsetsInTile.     (* lines 128-137 *)

(** Lines 81-137 of [main] without the downloads (which run between the
    second and the third assertion): the grid, or the assertion that
    raised. *)
Definition tile_grid_checked (sw ne : Z * Z) : grid + assertion :=
  let sw_img_idx := (sw.1 / OSM_TILE_SIZE, sw.2 / OSM_TILE_SIZE) in
  let ne_img_idx := (ne.1 / OSM_TILE_SIZE, ne.2 / OSM_TILE_SIZE) in
  if decide (sw.1 ≤ ne.1 ∧ ne.2 ≤ sw.2) then
    if decide (sw_img_idx.1 ≤ ne_img_idx.1 ∧ ne_img_idx.2 ≤ sw_img_idx.2) then
      let n_x_imgs := ne_img_idx.1 - sw_img_idx.1 + 1 in
      let n_y_imgs := sw_img_idx.2 - ne_img_idx.2 + 1 in
      let width := n_x_imgs * OSM_TILE_SIZE in
      let height := n_y_imgs * OSM_TILE_SIZE in
      let pastes :=
        i ← py_range sw_img_idx.1 (ne_img_idx.1 + 1);
        j ← py_range ne_img_idx.2 (sw_img_idx.2 + 1);
        [(i, j, (i - sw_img_idx.1) * OSM_TILE_SIZE,
                (j - ne_img_idx.2) * OSM_TILE_SIZE)] in
      let tl_offset := (sw.1 - sw_img_idx.1 * OSM_TILE_SIZE,
                        ne.2 - ne_img_idx.2 * OSM_TILE_SIZE) in
      let br_offset := (ne.1 - (ne_img_idx.1 + 1) * OSM_TILE_SIZE,
                        sw.2 - (sw_img_idx.2 + 1) * OSM_TILE_SIZE) in
      if decide (tl_offset.1 < 256 ∧ 0 ≤ tl_offset.1
                 ∧ tl_offset.2 < 256 ∧ 0 ≤ tl_offset.2
                 ∧ -256 < br_offset.1 ∧ br_offset.1 ≤ 0
                 ∧ -256 < br_offset.2 ∧ br_offset.2 ≤ 0)
      then inl (Grid n_x_imgs n_y_imgs width height pastes tl_offset br_offset)
      else inr OffsetsInTile
    else inr IndexesOrdered
  else inr BoundsOrdered.

(** The same run as Python reports it: an [AssertionError] does not say
    which statement raised it. *)
Definition tile_grid (sw ne : Z * Z) : result grid :=
  match tile_grid_checked sw ne with
  | inl g => Ok g
  | inr _ => Raise AssertionError
  end.

(** [osm_img[tl_offset["y"] : br_offset["y"], tl_offset["x"] : br_offset["x"]]]. *)
Definition crop {A} (osm_img : list (list A)) (g : grid) : list (list A) :=
  map (λ row, py_slice row (tl_offset g).1 (br_offset g).1)
    (py_slice osm_img (tl_offset g).2 (br_offset g).2).

End TileGrid.

(** * Properties *)

(** ** Reading rasters after an update *)

Lemma get2_Some {A} (m : list (list A)) r c x :
  get2 m r c = Some x ↔ ∃ row, m !! r = Some row ∧ row !! c = Some x.
Proof.
  unfold get2. destruct (m !! r) as [row|]; simpl.
  - split; [intros H; eauto | intros (row' & [= <-] & H); done].
  - split; [done | intros (row' & [=] & _)].
Qed.

Section RasterFacts.
Context {A B C : Type}.
Implicit Types (m : list (list A)).

Lemma get2_map (f : A → B) m r c :
  get2 (map (map f) m) r c = f <$> get2 m r c.
Proof.
  unfold get2. rewrite list_lookup_fmap.
  destruct (m !! r) as [row|]; simpl; [apply list_lookup_fmap | done].
Qed.

Lemma get2_imap (f : nat → nat → A → B) m r c :
  get2 (imap (λ r row, imap (λ c x, f r c x) row) m) r c = f r c <$> get2 m r c.
Proof.
  unfold get2. rewrite list_lookup_imap.
  destruct (m !! r) as [row|]; simpl; [apply list_lookup_imap | done].
Qed.

Lemma get2_zip_with (f : A → B → C) m (k : list (list B)) r c z :
  get2 (zip_with (zip_with f) m k) r c = Some z ↔
  ∃ x y, get2 m r c = Some x ∧ get2 k r c = Some y ∧ z = f x y.
Proof.
  rewrite get2_Some. split.
  - intros (row & Hrow & Hz).
    apply lookup_zip_with_Some in Hrow as (ra & rb & -> & Ha & Hb).
    apply lookup_zip_with_Some in Hz as (x & y & -> & Hx & Hy).
    exists x, y. rewrite !get2_Some. eauto 10.
  - intros (x & y & Hx & Hy & ->).
    apply get2_Some in Hx as (ra & Ha & Hx).
    apply get2_Some in Hy as (rb & Hb & Hy).
    exists (zip_with f ra rb). split; apply lookup_zip_with_Some; eauto 10.
Qed.

Lemma row_lengths_get2 m (k : list (list B)) r c :
  row_lengths m = row_lengths k → is_Some (get2 m r c) → is_Some (get2 k r c).
Proof.
  intros Hlen [x Hx]. apply get2_Some in Hx as (ra & Ha & Hx).
  assert (row_lengths m !! r = Some (length ra)) as Hr
    by (unfold row_lengths; rewrite list_lookup_fmap, Ha; done).
  rewrite Hlen in Hr. unfold row_lengths in Hr.
  rewrite list_lookup_fmap in Hr.
  destruct (k !! r) as [rb|] eqn:Hb; simpl in Hr; [|done].
  injection Hr as Hr.
  destruct (lookup_lt_is_Some_2 rb c) as [y Hy].
  { rewrite Hr. eapply lookup_lt_Some; eauto. }
  exists y. apply get2_Some; eauto.
Qed.

Lemma get2_set2 m r c v r' c' :
  get2 (set2 m r c v) r' c' =
  if decide (r = r' ∧ c = c') then (λ _, v) <$> get2 m r' c' else get2 m r' c'.
Proof.
  unfold get2, set2. destruct (decide (r = r')) as [->|Hr].
  - rewrite list_lookup_alter_eq. destruct (m !! r') as [row|]; simpl.
    + destruct (decide (c = c')) as [->|Hc].
      * rewrite decide_True by done.
        destruct (row !! c') as [x|] eqn:Hx; simpl.
        -- apply list_lookup_insert_eq. eapply lookup_lt_Some; eauto.
        -- apply lookup_ge_None. rewrite length_insert.
           by apply lookup_ge_None.
      * rewrite decide_False by (intros [_ ?]; done).
        by apply list_lookup_insert_ne.
    + by destruct (decide _).
  - rewrite list_lookup_alter_ne by done.
    rewrite decide_False by (intros [? _]; done). done.
Qed.

Lemma row_lengths_set2 m r c v : row_lengths (set2 m r c v) = row_lengths m.
Proof.
  unfold row_lengths, set2. apply list_eq; intros i.
  rewrite !list_lookup_fmap. destruct (decide (r = i)) as [->|Hr].
  - rewrite list_lookup_alter_eq. destruct (m !! i); simpl; [|done].
    by rewrite length_insert.
  - by rewrite list_lookup_alter_ne.
Qed.
End RasterFacts.

(** ** Painting *)

Lemma row_lengths_fill (m : raster) ps v : row_lengths (fill m ps v) = row_lengths m.
Proof.
  unfold fill. revert m. induction ps as [|p ps IH]; intros m; simpl; [done|].
  rewrite IH. apply row_lengths_set2.
Qed.

(** A pixel of the raster holds [v] after [fill] when the feature covers
    it, and its old value otherwise. *)
Lemma get2_fill (m : raster) ps v r c x :
  get2 m r c = Some x →
  get2 (fill m ps v) r c = Some (if bool_decide ((r, c) ∈ ps) then v else x).
Proof.
  unfold fill. revert m x. induction ps as [|[r0 c0] ps IH]; intros m x Hx; simpl.
  - done.
  - destruct (decide (r0 = r ∧ c0 = c)) as [[-> ->]|Hne].
    + erewrite IH; last first.
      { rewrite get2_set2, decide_True, Hx by done. done. }
      rewrite (bool_decide_eq_true_2 ((r, c) ∈ (r, c) :: ps)) by set_solver.
      by destruct (bool_decide _).
    + erewrite IH; last first.
      { rewrite get2_set2, decide_False by done. done. }
      apply f_equal.
      destruct (bool_decide ((r, c) ∈ ps)) eqn:Hin.
      * rewrite bool_decide_eq_true_2; [done|].
        apply bool_decide_eq_true in Hin. set_solver.
      * rewrite bool_decide_eq_false_2; [done|].
        apply bool_decide_eq_false in Hin.
        intros [[=]|?]%elem_of_cons; naive_solver.
Qed.

Lemma get2_fill_None (m : raster) ps v r c :
  get2 m r c = None → get2 (fill m ps v) r c = None.
Proof.
  unfold fill. revert m. induction ps as [|[r0 c0] ps IH]; intros m Hx; simpl.
  - done.
  - apply IH. rewrite get2_set2. destruct (decide _); by rewrite Hx.
Qed.

Lemma get2_replace_eq (a : raster) old new r c :
  get2 (replace_eq a old new) r c =
  (λ x, if decide (x = old) then new else x) <$> get2 a r c.
Proof. apply get2_map. Qed.

Lemma get2_assign_where (a mask a' : raster) v r c x :
  assign_where a mask v = Ok a' →
  get2 a r c = Some x →
  ∃ k, get2 mask r c = Some k ∧
       get2 a' r c = Some (if decide (k ≠ 0) then v else x).
Proof.
  unfold assign_where. destruct (decide _) as [Hlen|]; [|done].
  intros [= <-] Hx.
  destruct (row_lengths_get2 a mask r c Hlen) as [k Hk]; [eauto|].
  exists k. split; [done|]. apply get2_zip_with. eauto.
Qed.

Lemma row_lengths_assign_where (a mask a' : raster) v :
  assign_where a mask v = Ok a' → row_lengths a' = row_lengths a.
Proof.
  unfold assign_where. destruct (decide _) as [Hlen|]; [|done].
  intros [= <-]. unfold row_lengths in *.
  revert mask Hlen. induction a as [|ra a IH]; intros [|rb mask] Hlen;
    simpl in *; try done.
  injection Hlen as Hr Hlen. f_equal; [|by apply IH].
  rewrite length_zip_with. lia.
Qed.

Lemma get2_get_empty_map h w r c x : get2 (get_empty_map h w) r c = Some x → x = 0.
Proof.
  intros (row & Hrow & Hx)%get2_Some.
  apply lookup_replicate in Hrow as [-> _].
  by apply lookup_replicate in Hx as [-> _].
Qed.

(** ** Feature classifier: polygon holes *)

Lemma tag_equals_inner (tags : tagmap) :
  tags !! "role" = Some "inner" → _tag_equals tags "role" (Some ["inner"]) = true.
Proof.
  intros H. unfold _tag_equals. rewrite H.
  apply bool_decide_eq_true. set_solver.
Qed.

Lemma tag_equals_any (tags : tagmap) key :
  _tag_equals tags key None = bool_decide (is_Some (tags !! key)).
Proof.
  unfold _tag_equals. destruct (tags !! key) as [v|].
  - symmetry. apply bool_decide_eq_true. eauto.
  - symmetry. apply bool_decide_eq_false. by intros [? ?].
Qed.

(** C1, as stated, fails: a footprint tagged role="inner" is classified 2
    for the segmentation map, and that class is painted at its pixels. *)
Lemma inner_role_painted_in_seg_map :
  let inner : tagmap := {[ "role" := "inner" ]} in
  inner !! "role" = Some "inner"
  ∧ _get_footprint_color (λ _, None) "seg_map" inner ≠ Ok None
  ∧ plot_footprints "seg_map" (_get_footprint_color (λ _, None))
      [[0]] [Feature inner [(0, 0)%nat] [(0, 0)%nat]] = Ok [[2]].
Proof. vm_compute. split; [done|]. split; [discriminate|done]. Qed.

(** C1 (amended): for tags with role="inner" the classifier returns "skip"
    for the height field only, where nothing is painted for the feature;
    it returns class 2 for the segmentation map, where the pixels of the
    feature are painted 2, and for the footprint contour 1 when a
    [building] tag is present and 0 otherwise. *)
Theorem inner_role_classification (int_float_half : string → option Z)
    (footprint_tags : tagmap) :
  footprint_tags !! "role" = Some "inner" →
  _get_footprint_color int_float_half "height_field" footprint_tags = Ok None
  ∧ (∀ map_img ps ol,
       plot_footprints "height_field" (_get_footprint_color int_float_half)
         map_img [Feature footprint_tags ps ol] = Ok map_img)
  ∧ _get_footprint_color int_float_half "seg_map" footprint_tags = Ok (Some 2)
  ∧ _get_footprint_color int_float_half "footprint_contour" footprint_tags
    = Ok (Some (if bool_decide (is_Some (footprint_tags !! "building"))
                then 1 else 0))
  ∧ (∀ map_img ps ol,
       plot_footprints "seg_map" (_get_footprint_color int_float_half)
         map_img [Feature footprint_tags ps ol] = Ok (fill map_img ps 2)).
Proof.
  intros Hrole. pose proof (tag_equals_inner _ Hrole) as Hin.
  assert (_get_footprint_color int_float_half "height_field" footprint_tags
          = Ok None) as Hhf.
  { unfold _get_footprint_color. rewrite decide_True by done. by rewrite Hin. }
  assert (_get_footprint_color int_float_half "seg_map" footprint_tags
          = Ok (Some 2)) as Hseg.
  { unfold _get_footprint_color.
    rewrite decide_False by done. rewrite decide_True by done. by rewrite Hin. }
  repeat split.
  - exact Hhf.
  - intros map_img ps ol. simpl. by rewrite Hhf.
  - exact Hseg.
  - unfold _get_footprint_color.
    rewrite !decide_False by done. rewrite decide_True by done.
    rewrite tag_equals_any. by destruct (bool_decide _).
  - intros map_img ps ol. simpl. by rewrite Hseg.
Qed.

Lemma inner_role_classification_witness :
  let inner : tagmap := {[ "role" := "inner"; "building" := "yes" ]} in
  inner !! "role" = Some "inner"
  ∧ _get_footprint_color (λ _, None) "height_field" inner = Ok None
  ∧ _get_footprint_color (λ _, None) "seg_map" inner = Ok (Some 2).
Proof.
  intros inner.
  assert (inner !! "role" = Some "inner") as Hrole by (vm_compute; reflexivity).
  split; [exact Hrole|].
  destruct (inner_role_classification (λ _, None) inner Hrole) as (H1 & _ & H2 & _).
  split; [exact H1 | exact H2].
Defined.

(** ** Patch extraction *)

(** C2: the requested patch overruns the right edge of a 10 x 10 raster;
    the end column is reset to 0, every row of the patch is empty, and the
    horizontal record is logged. *)
Theorem patch_overrunning_right_edge_is_empty :
  _get_img_patch (blob_in 10 10 0 0 10 10) 8 5 6
  = ([[]; []; []; []; []; []], [HorizontalCenterError 8]).
Proof. vm_compute. reflexivity. Qed.

(** In general: a patch that starts inside the raster and reaches its right
    edge or beyond has no columns at all. *)
Lemma patch_past_right_edge_has_no_columns (img : raster) (cx cy patch_size : Z) :
  0 ≤ cx - patch_size / 2 →
  Z.of_nat (shape img).2 ≤ cx + patch_size / 2 →
  Forall (λ row, row = []) (_get_img_patch img cx cy patch_size).1.
Proof.
  intros Hs He. unfold _get_img_patch.
  rewrite (decide_True (P:=cx - patch_size / 2 < 0 ∨ _)) by (right; exact He).
  rewrite (decide_False (P:=cx - patch_size / 2 < 0)) by lia.
  rewrite (decide_True (P:=Z.of_nat (shape img).2 ≤ _)) by exact He.
  destruct (decide (cy - patch_size / 2 < 0 ∨ _)); simpl;
    apply Forall_fmap, Forall_true; intros row; simpl;
    unfold py_slice, slice_bound;
    rewrite (decide_False (P:=0 < 0)) by lia;
    (replace (Z.to_nat _) with 0%nat at 1; [done|]);
    destruct (decide (cx - patch_size / 2 < 0)); lia.
Qed.

(** The same happens at the bottom edge: no rows are left. *)
Lemma patch_overrunning_bottom_edge_is_empty :
  _get_img_patch (blob_in 10 10 0 0 10 10) 5 8 6 = ([], [VerticalCenterError 8]).
Proof. vm_compute. reflexivity. Qed.

(** Clamping at the left edge keeps the requested end column, so the patch
    is narrower than [patch_size]. *)
Lemma patch_overrunning_left_edge_is_narrow :
  (_get_img_patch (blob_in 10 10 0 0 10 10) 1 5 6).1 = replicate 6 (replicate 4 255).
Proof. vm_compute. reflexivity. Qed.

(** ** Layer compositor: the ground default of the segmentation map *)

(** C6: whenever [get_osm_images] returns, no pixel of the segmentation
    map is 0: the map is the one painted by the highways, the environment
    masks and the footprints, in which every pixel that was still 0 holds
    the ground class 6 and every other pixel keeps its class. *)
Theorem seg_map_never_zero (int_float_half : string → option Z)
    (cv2_resize : raster → nat * nat → raster)
    (highways footprints : list feature) (xy_bounds : nat * nat)
    (osm_tile_img : option bgr_image) (height_field seg_map contour : raster) :
  get_osm_images int_float_half cv2_resize highways footprints xy_bounds
    osm_tile_img = Ok (height_field, seg_map, contour) →
  (∀ r c v, get2 seg_map r c = Some v → v ≠ 0)
  ∧ ∃ before coast_zones green_lands painted,
      seg_map_before_footprints cv2_resize highways xy_bounds osm_tile_img
      = Ok (before, coast_zones, green_lands)
      ∧ plot_footprints "seg_map" (_get_footprint_color int_float_half)
          before footprints = Ok painted
      ∧ row_lengths seg_map = row_lengths painted
      ∧ (∀ r c, get2 painted r c = Some 0 → get2 seg_map r c = Some 6)
      ∧ (∀ r c x, get2 painted r c = Some x → x ≠ 0 →
                  get2 seg_map r c = Some x).
Proof.
  unfold get_osm_images. intros Hrun.
  destruct (seg_map_before_footprints _ _ _ _) as [[[s0 cz] gl]|]; [|done].
  simpl in Hrun.
  destruct (plot_footprints "seg_map" _ _ _) as [s1|] eqn:Hs1; [|done].
  simpl in Hrun.
  destruct (plot_footprint_outlines "footprint_contour" _ _ _) as [ct|];
    [|done].
  simpl in Hrun.
  destruct (compose_height_field _ _ _ _ _ _) as [hf|]; [|done].
  simpl in Hrun. injection Hrun as <- <- <-.
  split.
  - intros r c v Hv. rewrite get2_replace_eq in Hv.
    destruct (get2 s1 r c) as [x|]; [|done]. simpl in Hv.
    injection Hv as <-. by destruct (decide (x = 0)).
  - exists s0, cz, gl, s1. split; [done|]. split; [exact Hs1|]. split.
    { unfold replace_eq, row_lengths. rewrite <- list_fmap_compose.
      apply list_fmap_ext. intros i row Hrow. simpl. apply length_fmap. }
    split.
    + intros r c Hp. by rewrite get2_replace_eq, Hp.
    + intros r c x Hp Hx. rewrite get2_replace_eq, Hp. simpl.
      by destruct (decide (x = 0)).
Qed.

Lemma seg_map_never_zero_witness :
  let highways := [Feature ∅ [(0, 0)%nat] [(0, 0)%nat]] in
  let building : tagmap := {[ "building" := "yes"; "height" := "12" ]} in
  let footprints := [Feature building [(1, 1)%nat] [(1, 1)%nat]] in
  let seg_map := [[1; 6]; [6; 2]] in
  get_osm_images (λ _, Some 12) (λ m _, m) highways footprints (2, 2)%nat None
  = Ok ([[4; 4]; [4; 12]], seg_map, [[0; 0]; [0; 1]])
  ∧ (∀ r c v, get2 seg_map r c = Some v → v ≠ 0)
  ∧ ∃ before coast_zones green_lands painted,
      seg_map_before_footprints (λ m _, m) highways (2, 2)%nat None
      = Ok (before, coast_zones, green_lands)
      ∧ plot_footprints "seg_map" (_get_footprint_color (λ _, Some 12))
          before footprints = Ok painted
      ∧ row_lengths seg_map = row_lengths painted
      ∧ (∀ r c, get2 painted r c = Some 0 → get2 seg_map r c = Some 6)
      ∧ (∀ r c x, get2 painted r c = Some x → x ≠ 0 →
                  get2 seg_map r c = Some x).
Proof.
  intros highways building footprints seg_map.
  assert (get_osm_images (λ _, Some 12) (λ m _, m) highways footprints
            (2, 2)%nat None
          = Ok ([[4; 4]; [4; 12]], seg_map, [[0; 0]; [0; 1]])) as Hrun
    by (vm_compute; reflexivity).
  split; [exact Hrun|].
  exact (seg_map_never_zero _ _ _ _ _ _ _ _ _ Hrun).
Defined.

(** ** Layer compositor: paint order *)

Lemma shape_row_lengths {A B} (a : list (list A)) (b : list (list B)) :
  row_lengths a = row_lengths b → shape a = shape b.
Proof.
  unfold shape, row_lengths. intros H.
  destruct a as [|ra a], b as [|rb b]; simpl in *; try done.
  injection H as Hr H. apply (f_equal length) in H.
  rewrite !length_fmap in H. by rewrite H, Hr.
Qed.

Lemma plot_highways_row_lengths map_name colors (m m' : raster) hws :
  plot_highways map_name colors m hws = Ok m' → row_lengths m' = row_lengths m.
Proof.
  revert m. induction hws as [|hw hws IH]; intros m; simpl.
  - by intros [= <-].
  - destruct (colors map_name (tags hw)) as [v|]; simpl; [|done].
    intros H%IH. by rewrite H, row_lengths_fill.
Qed.

(** Painting highways into an all-zero height field changes nothing:
    their value is 0 as well. *)
Lemma plot_highways_height_field_zero (m : raster) hws :
  (∀ r c x, get2 m r c = Some x → x = 0) →
  ∃ m', plot_highways "height_field" _get_highway_color m hws = Ok m'
        ∧ row_lengths m' = row_lengths m
        ∧ ∀ r c x, get2 m' r c = Some x → x = 0.
Proof.
  revert m. induction hws as [|hw hws IH]; intros m Hz; simpl.
  - eauto.
  - destruct (IH (fill m (cover hw) 0)) as (m' & Hm' & Hlen & Hz').
    + intros r c x Hx. destruct (get2 m r c) as [y|] eqn:Hy.
      * rewrite (get2_fill _ _ _ _ _ _ Hy) in Hx. injection Hx as <-.
        destruct (bool_decide _); [done | eauto].
      * by rewrite get2_fill_None in Hx.
    + exists m'. split; [exact Hm'|]. split; [|done].
      by rewrite Hlen, row_lengths_fill.
Qed.

Section PlotFootprints.
Variable map_name : string.
Variable colors : string → tagmap → result (option Z).

Lemma plot_footprints_app (m : raster) fs1 fs2 :
  plot_footprints map_name colors m (fs1 ++ fs2) =
  (m1 ← plot_footprints map_name colors m fs1;
   plot_footprints map_name colors m1 fs2).
Proof.
  revert m. induction fs1 as [|fp fs1 IH]; intros m; simpl; [done|].
  destruct (colors map_name (tags fp)) as [[v|]|]; simpl; auto.
Qed.

Lemma plot_footprints_None (m m' : raster) fps r c :
  plot_footprints map_name colors m fps = Ok m' →
  get2 m r c = None → get2 m' r c = None.
Proof.
  revert m. induction fps as [|fp fps IH]; intros m; simpl.
  - by intros [= <-].
  - destruct (colors map_name (tags fp)) as [[v|]|]; simpl; [| |done].
    + intros H Hn. eapply IH; [exact H|]. by apply get2_fill_None.
    + apply IH.
Qed.

(** A pixel that no painted footprint covers keeps its value. *)
Lemma plot_footprints_untouched (m m' : raster) fps r c x :
  plot_footprints map_name colors m fps = Ok m' →
  get2 m r c = Some x →
  (∀ fp, fp ∈ fps → (r, c) ∈ cover fp → colors map_name (tags fp) = Ok None) →
  get2 m' r c = Some x.
Proof.
  revert m. induction fps as [|fp fps IH]; intros m; simpl.
  - by intros [= <-].
  - intros Hrun Hx Hfree.
    destruct (colors map_name (tags fp)) as [[v|]|] eqn:Hc; simpl in Hrun;
      [| |done].
    + eapply IH; [exact Hrun| |intros; apply Hfree; set_solver].
      rewrite (get2_fill _ _ _ _ _ _ Hx).
      rewrite bool_decide_eq_false_2; [done|].
      intros Hin. specialize (Hfree fp (list_elem_of_here _ _) Hin). congruence.
    + eapply IH; [exact Hrun|done|intros; apply Hfree; set_solver].
Qed.

Lemma plot_footprints_Some (m m' : raster) fps r c :
  plot_footprints map_name colors m fps = Ok m' →
  is_Some (get2 m r c) → is_Some (get2 m' r c).
Proof.
  revert m. induction fps as [|fp fps IH]; intros m; simpl.
  - by intros [= <-].
  - destruct (colors map_name (tags fp)) as [[v|]|]; simpl; [| |done].
    + intros H [x Hx]. eapply IH; [exact H|].
      rewrite (get2_fill _ _ _ _ _ _ Hx). eauto.
    + apply IH.
Qed.

(** The last footprint that paints a pixel decides its value. *)
Lemma plot_footprints_last_wins (m m' : raster) fs1 fp fs2 r c x v :
  plot_footprints map_name colors m (fs1 ++ fp :: fs2) = Ok m' →
  get2 m r c = Some x →
  (r, c) ∈ cover fp →
  colors map_name (tags fp) = Ok (Some v) →
  (∀ fp', fp' ∈ fs2 → (r, c) ∈ cover fp' → colors map_name (tags fp') = Ok None) →
  get2 m' r c = Some v.
Proof.
  intros Hrun Hx Hin Hc Hfree. rewrite plot_footprints_app in Hrun.
  destruct (plot_footprints map_name colors m fs1) as [m1|] eqn:H1; [|done].
  simpl in Hrun. rewrite Hc in Hrun. simpl in Hrun.
  destruct (plot_footprints_Some _ _ _ r c H1) as [y Hy]; [eauto|].
  eapply plot_footprints_untouched; [exact Hrun| |exact Hfree].
  rewrite (get2_fill _ _ _ _ _ _ Hy). by rewrite bool_decide_eq_true_2.
Qed.
End PlotFootprints.

Lemma get2_assign_where_inv (a mask a' : raster) v r c y :
  assign_where a mask v = Ok a' →
  get2 a' r c = Some y →
  ∃ x, get2 a r c = Some x
       ∧ y = if mask_on (Some mask) r c then v else x.
Proof.
  unfold assign_where. destruct (decide _) as [Hlen|]; [|done].
  intros [= <-] (x & k & Hx & Hk & ->)%get2_zip_with.
  exists x. split; [done|]. unfold mask_on. rewrite Hk.
  destruct (decide (k ≠ 0)).
  - by rewrite bool_decide_eq_true_2.
  - by rewrite bool_decide_eq_false_2.
Qed.

(** Before the footprints are painted, the height field depends on the two
    environment masks only: 8 on green land, else 0 on the coast, else 4.
    The highways leave no trace. *)
Lemma height_field_before_footprints_value highways xy_bounds coast_zones
    green_lands (hf : raster) r c v :
  height_field_before_footprints highways xy_bounds coast_zones green_lands
  = Ok hf →
  get2 hf r c = Some v →
  v = if mask_on green_lands r c then 8
      else if mask_on coast_zones r c then 0 else 4.
Proof.
  unfold height_field_before_footprints. intros Hrun Hv.
  destruct (plot_highways_height_field_zero
              (get_empty_map xy_bounds.1 xy_bounds.2) highways)
    as (m1 & Hm1 & _ & Hz); [apply get2_get_empty_map|].
  rewrite Hm1 in Hrun. simpl in Hrun.
  assert (∀ x, get2 (replace_eq m1 0 4) r c = Some x → x = 4) as H4.
  { intros x. rewrite get2_replace_eq.
    destruct (get2 m1 r c) as [y|] eqn:Hy; [|done].
    intros [= <-]. by rewrite (Hz _ _ _ Hy). }
  set (m2 := replace_eq m1 0 4) in *. clearbody m2.
  assert (∀ m3 x, match coast_zones with
                  | Some cz => assign_where m2 cz 0
                  | None => Ok m2
                  end = Ok m3 →
                  get2 m3 r c = Some x →
                  x = if mask_on coast_zones r c then 0 else 4) as H3.
  { intros m3 x. destruct coast_zones as [cz|].
    - intros Ha Hx.
      destruct (get2_assign_where_inv _ _ _ _ _ _ _ Ha Hx) as (x0 & Hx0 & ->).
      by rewrite (H4 _ Hx0).
    - intros [= <-] Hx. by rewrite (H4 _ Hx). }
  destruct (match coast_zones with
            | Some cz => assign_where m2 cz 0
            | None => Ok m2
            end) as [m3|]; [|done].
  simpl in Hrun. specialize (H3 m3). destruct green_lands as [gl|].
  - destruct (get2_assign_where_inv _ _ _ _ _ _ _ Hrun Hv) as (x0 & Hx0 & ->).
    by rewrite (H3 _ eq_refl Hx0).
  - injection Hrun as <-. simpl. by apply H3.
Qed.

Lemma plot_footprints_Some_inv (hf hf' : raster) map_name colors fps r c :
  plot_footprints map_name colors hf fps = Ok hf' →
  is_Some (get2 hf' r c) → is_Some (get2 hf r c).
Proof.
  intros Hrun [v Hv]. destruct (get2 hf r c) eqn:Hx; [eauto|].
  by rewrite (plot_footprints_None _ _ _ _ _ _ _ Hrun Hx) in Hv.
Qed.

(** C5, as stated, fails: a pixel painted by a highway, with no coast,
    green land or footprint over it, holds 4 in the height field, as the
    pixel next to it that nothing painted. *)
Lemma highway_pixel_gets_default_height :
  compose_height_field (λ _, None) [Feature ∅ [(0, 0)%nat] [(0, 0)%nat]] [] (1, 2)%nat
    None None = Ok [[4; 4]].
Proof. vm_compute. reflexivity. Qed.

(** C5 (amended): in the composed height field a pixel that no footprint
    paints holds 8 on green land, else 0 on the coast, else the default 4,
    whether or not a highway painted it; a pixel that footprints paint
    holds the value of the last one that does. *)
Theorem height_field_paint_order (int_float_half : string → option Z)
    (highways footprints : list feature) (xy_bounds : nat * nat)
    (coast_zones green_lands : option raster) (hf : raster) (r c : nat) (v : Z) :
  compose_height_field int_float_half highways footprints xy_bounds
    coast_zones green_lands = Ok hf →
  get2 hf r c = Some v →
  ((∀ fp, fp ∈ footprints → (r, c) ∈ cover fp →
      _get_footprint_color int_float_half "height_field" (tags fp) = Ok None) →
   v = if mask_on green_lands r c then 8
       else if mask_on coast_zones r c then 0 else 4)
  ∧ (∀ fs1 fp fs2 x,
       footprints = fs1 ++ fp :: fs2 →
       (r, c) ∈ cover fp →
       _get_footprint_color int_float_half "height_field" (tags fp) = Ok (Some x) →
       (∀ fp', fp' ∈ fs2 → (r, c) ∈ cover fp' →
          _get_footprint_color int_float_half "height_field" (tags fp') = Ok None) →
       v = x).
Proof.
  unfold compose_height_field. intros Hrun Hv.
  destruct (height_field_before_footprints highways xy_bounds coast_zones
              green_lands) as [hf0|] eqn:H0; [|done].
  simpl in Hrun.
  destruct (plot_footprints_Some_inv hf0 hf _ _ footprints r c Hrun)
    as [x0 Hx0]; [eauto|].
  split.
  - intros Hfree.
    pose proof (plot_footprints_untouched _ _ _ _ _ _ _ _ Hrun Hx0 Hfree) as Hsame.
    rewrite Hv in Hsame. injection Hsame as ->.
    eapply height_field_before_footprints_value; eauto.
  - intros fs1 fp fs2 x -> Hin Hc Hfree.
    pose proof (plot_footprints_last_wins _ _ _ _ _ _ _ _ _ _ _ Hrun Hx0 Hin
                  Hc Hfree) as Hlast.
    rewrite Hv in Hlast. by injection Hlast.
Qed.

Lemma height_field_paint_order_witness :
  let parse : string → option Z := λ _, Some 12 in
  let highways := [Feature ∅ [(0, 0); (0, 1)]%nat [(0, 0); (0, 1)]%nat] in
  let building : tagmap := {[ "building" := "yes"; "height" := "12" ]} in
  let footprints := [Feature building [(0, 1)%nat] [(0, 1)%nat]] in
  let coast := Some [[0; 0; 255; 0]] in
  let green := Some [[0; 0; 0; 255]] in
  compose_height_field parse highways footprints (1, 4)%nat coast green
  = Ok [[4; 12; 0; 8]]
  ∧ ((∀ fp, fp ∈ footprints → (0, 0)%nat ∈ cover fp →
        _get_footprint_color parse "height_field" (tags fp) = Ok None) →
     4 = if mask_on green 0 0 then 8 else if mask_on coast 0 0 then 0 else 4).
Proof.
  intros parse highways building footprints coast green.
  assert (compose_height_field parse highways footprints (1, 4)%nat coast green
          = Ok [[4; 12; 0; 8]]) as Hrun by (vm_compute; reflexivity).
  split; [exact Hrun|].
  apply (height_field_paint_order parse highways footprints (1, 4)%nat coast
           green [[4; 12; 0; 8]] 0%nat 0%nat 4 Hrun).
  reflexivity.
Defined.

(** ** Layer compositor: coast and green land in the segmentation map *)

Lemma mask_on_Some (m : raster) r c :
  mask_on (Some m) r c = true ↔ ∃ k, get2 m r c = Some k ∧ k ≠ 0.
Proof.
  unfold mask_on. destruct (get2 m r c) as [k|].
  - rewrite bool_decide_eq_true. split.
    + intros Hk. by exists k.
    + by intros (k' & [= <-] & Hk).
  - split; [done|]. by intros (k' & [=] & _).
Qed.

(** [get_green_lands] is zero on every pixel that already has a class. *)
Lemma green_lands_only_unclassified cv2_resize tile_img (seg_map g : raster) r c x :
  get_green_lands cv2_resize tile_img seg_map = Ok g →
  get2 seg_map r c = Some x → x ≠ 0 → get2 g r c = Some 0.
Proof.
  unfold get_green_lands, mul_arrays.
  destruct (decide _) as [Hlen|]; [|done].
  intros [= <-] Hx Hne. apply get2_zip_with.
  set (cleaned := _remove_mask_outliers _) in *.
  set (uncat := map (map _) seg_map) in *.
  assert (get2 uncat r c = Some 0) as Hu.
  { unfold uncat. rewrite get2_map, Hx. simpl. by rewrite decide_False. }
  destruct (row_lengths_get2 uncat cleaned r c) as [y Hy]; [done|eauto|].
  exists y, 0. repeat split; [done..|lia].
Qed.

(** C8: with a tile image, the coast mask is computed from the image and
    the raster shape only, class 5 is written on every coast pixel whatever
    class it had (a highway's class 1 included), whereas the green-land
    mask is zero wherever a highway had already been painted. *)
Theorem coast_overwrites_every_class (cv2_resize : raster → nat * nat → raster)
    (highways : list feature) (xy_bounds : nat * nat) (tile_img : bgr_image)
    (seg_map : raster) (coast_zones green_lands : option raster) :
  seg_map_before_footprints cv2_resize highways xy_bounds (Some tile_img)
  = Ok (seg_map, coast_zones, green_lands) →
  let coast := get_coast_zones cv2_resize tile_img
                 (shape (get_empty_map xy_bounds.1 xy_bounds.2)) in
  coast_zones = Some coast
  ∧ (∀ r c, mask_on (Some coast) r c = true → get2 seg_map r c = Some 5)
  ∧ (∃ g, green_lands = Some g ∧
       ∀ painted r c x,
         plot_highways "seg_map" _get_highway_color
           (get_empty_map xy_bounds.1 xy_bounds.2) highways = Ok painted →
         get2 painted r c = Some x → x ≠ 0 → get2 g r c = Some 0).
Proof.
  unfold seg_map_before_footprints. intros Hrun.
  destruct (plot_highways "seg_map" _ _ _) as [s1|] eqn:H1; [|done].
  simpl in Hrun.
  destruct (get_green_lands cv2_resize tile_img s1) as [g|] eqn:Hg; [|done].
  simpl in Hrun.
  destruct (assign_where s1 g 3) as [s2|] eqn:H2; [|done]. simpl in Hrun.
  assert (shape s2 = shape (get_empty_map xy_bounds.1 xy_bounds.2)) as Hshape.
  { apply shape_row_lengths.
    rewrite (row_lengths_assign_where _ _ _ _ H2).
    apply (plot_highways_row_lengths _ _ _ _ _ H1). }
  rewrite Hshape in Hrun.
  set (coast := get_coast_zones _ _ _) in *.
  destruct (assign_where s2 coast 5) as [s3|] eqn:H3; [|done]. simpl in Hrun.
  injection Hrun as <- <- <-. split; [done|]. split.
  - intros r c (k & Hk & Hne)%mask_on_Some.
    assert (row_lengths s2 = row_lengths coast) as Hlen.
    { unfold assign_where in H3. by destruct (decide _). }
    destruct (row_lengths_get2 coast s2 r c) as [x Hx]; [done|eauto|].
    destruct (get2_assign_where _ _ _ _ _ _ _ H3 Hx) as (k' & Hk' & ->).
    rewrite Hk in Hk'. injection Hk' as <-. by rewrite decide_True.
  - exists g. split; [done|]. intros painted r c x [= <-].
    intros Hx Hne. eapply green_lands_only_unclassified; eauto.
Qed.

Lemma coast_overwrites_every_class_witness :
  let highways := [Feature ∅ [(0, 0)%nat] [(0, 0)%nat]] in
  let resize : raster → nat * nat → raster := λ m _, m in
  ∃ seg_map coast_zones green_lands,
    seg_map_before_footprints resize highways (10, 10)%nat (Some water_tile)
    = Ok (seg_map, coast_zones, green_lands)
    ∧ (plot_highways "seg_map" _get_highway_color (get_empty_map 10 10) highways
       ≫= λ painted, Ok (get2 painted 0 0)) = Ok (Some 1)
    ∧ get2 seg_map 0 0 = Some 5.
Proof.
  intros highways resize.
  destruct (seg_map_before_footprints resize highways (10, 10)%nat
              (Some water_tile)) as [[[seg cz] gl]|e] eqn:Hrun.
  - exists seg, cz, gl. split; [reflexivity|]. split; [vm_compute; reflexivity|].
    destruct (coast_overwrites_every_class resize highways (10, 10)%nat
                water_tile seg cz gl Hrun) as (_ & Hcoast & _).
    apply Hcoast. vm_compute. reflexivity.
  - exfalso. vm_compute in Hrun. discriminate Hrun.
Defined.

(** ** Camera track aligner *)

Section Means.
Context {A : Type}.
Local Open Scope Q_scope.

Lemma Qsum_ext (f g : A → Q) (l : list A) :
  (∀ a, f a == g a) → Qsum (map f l) == Qsum (map g l).
Proof.
  intros Hfg. induction l as [|a l IH]; simpl; [reflexivity|].
  by rewrite IH, Hfg.
Qed.

Lemma Qsum_shift (f : A → Q) (k : Q) (l : list A) :
  Qsum (map (λ a, f a - k) l)
  == Qsum (map f l) - inject_Z (Z.of_nat (length l)) * k.
Proof.
  induction l as [|a l IH].
  - simpl. ring.
  - cbn [map Qsum foldr length]. fold (Qsum (map (λ a, f a - k) l)).
    fold (Qsum (map f l)). rewrite IH, Nat2Z.inj_succ.
    unfold Z.succ. rewrite inject_Z_plus. ring.
Qed.

Lemma inject_length_nonzero (l : list A) :
  l ≠ [] → ¬ inject_Z (Z.of_nat (length l)) == 0.
Proof.
  intros Hl Hz. destruct l as [|a l]; [done|].
  unfold Qeq in Hz. simpl in Hz. lia.
Qed.

Lemma np_mean_ext (f g : A → Q) (l : list A) :
  (∀ a, f a == g a) → np_mean (map f l) == np_mean (map g l).
Proof.
  intros Hfg. unfold np_mean. by rewrite (Qsum_ext f g l Hfg), !length_map.
Qed.

(** Subtracting the mean from every element leaves a list of mean 0. *)
Lemma np_mean_centered (f : A → Q) (l : list A) :
  l ≠ [] → np_mean (map (λ a, f a - np_mean (map f l)) l) == 0.
Proof.
  intros Hl. unfold np_mean at 1. rewrite Qsum_shift, length_map.
  unfold np_mean. rewrite length_map.
  pose proof (inject_length_nonzero l Hl). field. done.
Qed.
End Means.

Section AlignerFacts.
Variable lnglat2xy : Q → Q → Q → Z → bool → Q * Q.
Variable resolution : Q.
Variable zoom_level : Z.
Local Open Scope Q_scope.

Abbreviation frame_xy gcp :=
  (lnglat2xy (longitude gcp) (latitude gcp) resolution zoom_level true).
Abbreviation target center := (target_xy lnglat2xy resolution zoom_level center).
Abbreviation rel := (relative_positions lnglat2xy resolution zoom_level).
Abbreviation offset := (track_offset lnglat2xy resolution zoom_level).
Abbreviation aligned := (aligned_positions lnglat2xy resolution zoom_level).

Lemma relative_positions_eq center poses :
  rel center poses =
  map (λ gcp, Position ((frame_xy gcp).1 - (target center).1)
                       ((frame_xy gcp).2 - (target center).2)
                       (altitude gcp)) poses.
Proof.
  unfold relative_positions. destruct (target center) as [cx cy]. simpl.
  apply map_ext. intros gcp. by destruct (frame_xy gcp).
Qed.

Lemma aligned_positions_eq center poses patch_size :
  aligned center poses patch_size =
  map (λ p, Position
              (pos_x p - ((offset center poses).1 - (vol_center patch_size).1.1))
              (pos_y p - ((offset center poses).2 - (vol_center patch_size).1.2))
              (pos_z p))
    (rel center poses).
Proof. reflexivity. Qed.

(** C4: for a track with at least one frame, the offset is the mean over
    the frames of (frame pixel position - target pixel position); every
    frame's position becomes its relative position minus that one offset
    plus the voxel centre; and the corrected relative positions (the
    aligned positions taken back from the voxel centre) have mean
    (0, 0, 0) when the altitudes sum to 0.  Arithmetic is exact. *)
Theorem track_offset_is_mean_and_centres (center : coordinate)
    (poses : list coordinate) (patch_size : Z) :
  poses ≠ [] →
  let off := offset center poses in
  let vol := vol_center patch_size in
  let out := aligned center poses patch_size in
  off.1 == np_mean (map (λ gcp, (frame_xy gcp).1 - (target center).1) poses)
  ∧ off.2 == np_mean (map (λ gcp, (frame_xy gcp).2 - (target center).2) poses)
  ∧ (∀ i p, rel center poses !! i = Some p →
       ∃ q, out !! i = Some q
            ∧ pos_x q == pos_x p - off.1 + vol.1.1
            ∧ pos_y q == pos_y p - off.2 + vol.1.2
            ∧ pos_z q = pos_z p)
  ∧ np_mean (map (λ q, pos_x q - vol.1.1) out) == 0
  ∧ np_mean (map (λ q, pos_y q - vol.1.2) out) == 0
  ∧ (Qsum (map altitude poses) == 0 →
     np_mean (map (λ q, pos_z q - vol.2) out) == 0).
Proof.
  intros Hne off vol out.
  assert (rel center poses ≠ []) as Hrel.
  { rewrite relative_positions_eq. by destruct poses. }
  split; [|split; [|split; [|split; [|split]]]].
  - unfold off, track_offset. simpl. rewrite relative_positions_eq.
    rewrite map_map. reflexivity.
  - unfold off, track_offset. simpl. rewrite relative_positions_eq.
    rewrite map_map. reflexivity.
  - intros i p Hp. unfold out. rewrite aligned_positions_eq.
    rewrite list_lookup_fmap, Hp. simpl. eexists. split; [reflexivity|].
    simpl. fold off. fold vol. repeat split; ring.
  - unfold out. rewrite aligned_positions_eq, map_map. cbn [pos_x].
    fold off. fold vol.
    rewrite (np_mean_ext _ (λ p, pos_x p - off.1)); [|intros; simpl; ring].
    apply (np_mean_centered pos_x _ Hrel).
  - unfold out. rewrite aligned_positions_eq, map_map. cbn [pos_y].
    fold off. fold vol.
    rewrite (np_mean_ext _ (λ p, pos_y p - off.2)); [|intros; simpl; ring].
    apply (np_mean_centered pos_y _ Hrel).
  - intros Hz. unfold out. rewrite aligned_positions_eq, map_map. cbn [pos_z].
    rewrite relative_positions_eq, map_map. cbn [pos_z].
    unfold np_mean. rewrite (Qsum_ext _ altitude); [|intros; simpl; ring].
    rewrite Hz. apply Qmult_0_l.
Qed.

(** C9: the aligned z of every frame is the altitude read for it. *)
Theorem altitude_is_untouched (center : coordinate) (poses : list coordinate)
    (patch_size : Z) :
  map pos_z (aligned center poses patch_size) = map altitude poses.
Proof.
  rewrite aligned_positions_eq, relative_positions_eq, !map_map. reflexivity.
Qed.
End AlignerFacts.

Lemma track_offset_is_mean_and_centres_witness :
  let proj : Q → Q → Q → Z → bool → Q * Q := λ lng lat _ _ _, (lng, lat) in
  let center := Coordinate 0 0 1 in
  let poses := [Coordinate 3 1 0; Coordinate 1 1 0] in
  poses ≠ []
  ∧ ((track_offset proj 1 18 center poses).1 == 2)%Q
  ∧ (np_mean (map (λ q, pos_x q - (vol_center 5).1.1)
                (aligned_positions proj 1 18 center poses 5)) == 0)%Q.
Proof.
  intros proj center poses.
  assert (poses ≠ []) as Hne by discriminate.
  split; [exact Hne|].
  destruct (track_offset_is_mean_and_centres proj 1 18 center poses 5 Hne)
    as (_ & _ & _ & Hx & _).
  split; [vm_compute; reflexivity | exact Hx].
Defined.

(** ** Tile fetcher *)

Section FetcherFacts.
Import TileFetcher.
Variable server : nat → fetch_outcome.

(** One download attempt, one sleep: a call that finds no tile file
    tries one download and sleeps once; a call that finds the file does
    neither. *)
Lemma get_tile_img_sleeps_once_per_attempt (w : world) :
  let w' := (get_tile_img server w).2 in
  match disk w with
  | None => attempts w' = S (attempts w) ∧ slept w' = S (slept w)
  | Some _ => w' = w
  end.
Proof.
  unfold get_tile_img. destruct (disk w) eqn:Hd; simpl; [done|].
  by destruct (server (attempts w)).
Qed.

Lemma fetch_patch_S fuel (w : world) :
  fetch_patch server (S fuel) w =
  match get_tile_img server w with
  | (Some img, w') => Some (img, w')
  | (None, w') => fetch_patch server fuel w'
  end.
Proof. reflexivity. Qed.

(** What the loop returns is the decoded tile file. *)
Lemma fetch_patch_returns_the_file fuel (w w' : world) img :
  fetch_patch server fuel w = Some (img, w') → disk w' = Some (Some img).
Proof.
  revert w. induction fuel as [|fuel IH]; intros w; [done|].
  rewrite fetch_patch_S.
  destruct (get_tile_img server w) as [[im|] w1] eqn:Hg; [|apply IH].
  intros Heq. injection Heq as -> ->. unfold get_tile_img in Hg.
  injection Hg as Hread Hw. rewrite Hw in Hread. unfold cv2_imread in Hread.
  destruct (disk w') as [[im0|]|]; [|done..]. by injection Hread as ->.
Qed.

(** An undecodable tile file is never fetched again: the loop spins on
    it without sleeping. *)
Lemma fetch_patch_stuck_on_bad_file fuel (w : world) :
  disk w = Some None → fetch_patch server fuel w = None.
Proof.
  intros Hd. induction fuel as [|fuel IH]; [done|].
  rewrite fetch_patch_S. unfold get_tile_img, cv2_imread.
  rewrite Hd. cbn iota. by rewrite Hd.
Qed.

Lemma fetch_patch_after_failures (k : nat) (w : world) img :
  disk w = None →
  (∀ i, (i < k)%nat → server (attempts w + i)%nat = GetRaises) →
  server (attempts w + k)%nat = Stored (Some img) →
  fetch_patch server (S k) w
  = Some (img, World (Some (Some img)) (attempts w + S k) (slept w + S k)
                 (logged w + k)).
Proof.
  revert w. induction k as [|k IH]; intros w Hd Hfail Hok.
  - rewrite fetch_patch_S. unfold get_tile_img, cv2_imread. rewrite Hd.
    rewrite Nat.add_0_r in Hok. rewrite Hok. cbn [disk].
    do 3 f_equal; lia.
  - rewrite fetch_patch_S.
    unfold get_tile_img, cv2_imread. rewrite Hd.
    rewrite <- (Nat.add_0_r (attempts w)).
    rewrite (Hfail 0%nat) by lia. cbn [disk].
    rewrite IH; cbn [disk attempts slept logged].
    + do 3 f_equal; lia.
    + done.
    + intros i Hi. replace (S (attempts w + 0) + i)%nat
        with (attempts w + S i)%nat by lia. apply Hfail. lia.
    + replace (S (attempts w + 0) + k)%nat with (attempts w + S k)%nat by lia.
      done.
Qed.

Lemma fetch_patch_still_failing (fuel : nat) (w : world) :
  disk w = None →
  (∀ i, (i < fuel)%nat → server (attempts w + i)%nat = GetRaises) →
  fetch_patch server fuel w = None.
Proof.
  revert w. induction fuel as [|fuel IH]; intros w Hd Hfail; [done|].
  rewrite fetch_patch_S. unfold get_tile_img, cv2_imread. rewrite Hd.
  rewrite <- (Nat.add_0_r (attempts w)).
  rewrite (Hfail 0%nat) by lia. cbn [disk].
  apply IH; cbn [disk attempts]; [done|].
  intros i Hi. replace (S (attempts w + 0) + i)%nat
    with (attempts w + S i)%nat by lia. apply Hfail. lia.
Qed.
End FetcherFacts.

(** C7, as stated, fails: no number of retries ends the loop against a
    server that always fails; the failure is never passed on. *)
Lemma fetch_loop_has_no_retry_bound :
  ¬ ∃ bound : nat,
      TileFetcher.fetch_patch TileFetcher.always_failing bound TileFetcher.fresh
      ≠ None.
Proof.
  intros [bound Hend]. apply Hend.
  by apply fetch_patch_still_failing.
Qed.

(** C7 (amended): the tile fetch is a synchronous loop that sleeps the
    same half second after every download attempt and repeats until a
    tile image can be read: after [k] failed downloads and one good one it
    has tried [k + 1] times, slept [k + 1] times, logged [k] exceptions
    and returns the image that was downloaded; while the downloads fail it
    is still running, whatever the number of iterations. *)
Theorem fetch_loop_retries_until_read (server : nat → TileFetcher.fetch_outcome)
    (k : nat) (img : bgr_image) :
  (∀ i, (i < k)%nat → server i = TileFetcher.GetRaises) →
  server k = TileFetcher.Stored (Some img) →
  TileFetcher.fetch_patch server (S k) TileFetcher.fresh
  = Some (img, TileFetcher.World (Some (Some img)) (S k) (S k) k)
  ∧ (∀ fuel, (fuel ≤ k)%nat →
       TileFetcher.fetch_patch server fuel TileFetcher.fresh = None)
  ∧ (∀ fuel,
       TileFetcher.fetch_patch TileFetcher.always_failing fuel TileFetcher.fresh
       = None).
Proof.
  intros Hfail Hok. split; [|split].
  - by rewrite (fetch_patch_after_failures server k TileFetcher.fresh img).
  - intros fuel Hfuel. apply fetch_patch_still_failing; [done|].
    intros i Hi. apply Hfail. simpl in *. lia.
  - intros fuel. by apply fetch_patch_still_failing.
Qed.

Lemma fetch_loop_retries_until_read_witness :
  let server := λ n : nat,
    if decide (n < 2)%nat then TileFetcher.GetRaises
    else TileFetcher.Stored (Some water_tile) in
  TileFetcher.fetch_patch server 3 TileFetcher.fresh
  = Some (water_tile, TileFetcher.World (Some (Some water_tile)) 3 3 2).
Proof.
  intros server.
  apply (fetch_loop_retries_until_read server 2 water_tile).
  - intros i Hi. unfold server. destruct (decide (i < 2)%nat); [reflexivity|lia].
  - reflexivity.
Defined.

(** ** Mask cleaner *)

Section Erosion.
Variable m : raster.

Local Abbreviation step := (erode_step m).

Lemma fold_min_le (ps : list (Z * Z)) (init : Z) p v :
  p ∈ ps → getZ m p.1 p.2 = Some v → foldr step init ps ≤ v.
Proof.
  induction ps as [|q ps IH]; [by intros ?%elem_of_nil|].
  intros [->|Hin]%elem_of_cons Hv; simpl; unfold erode_step at 1.
  - rewrite Hv. lia.
  - specialize (IH Hin Hv). destruct (getZ m q.1 q.2); lia.
Qed.

Lemma fold_min_nonneg (ps : list (Z * Z)) (init : Z) :
  0 ≤ init →
  (∀ p v, p ∈ ps → getZ m p.1 p.2 = Some v → 0 ≤ v) →
  0 ≤ foldr step init ps.
Proof.
  intros Hinit. induction ps as [|q ps IH]; intros Hps; simpl; [done|].
  unfold erode_step at 1. destruct (getZ m q.1 q.2) as [v|] eqn:Hv.
  - apply Z.min_glb; [eapply Hps; [left|done] | apply IH].
    intros; eapply Hps; [by right|done].
  - apply IH. intros; eapply Hps; [by right|done].
Qed.

Lemma uint8_get2 r c v : uint8_raster m → get2 m r c = Some v → 0 ≤ v ≤ 255.
Proof.
  intros Hm (row & Hrow & Hv)%get2_Some.
  eapply Forall_lookup_1 in Hm; [|exact Hrow].
  eapply Forall_lookup_1 in Hm; [|exact Hv]. done.
Qed.

Lemma uint8_getZ r c v : uint8_raster m → getZ m r c = Some v → 0 ≤ v ≤ 255.
Proof.
  unfold getZ. destruct (decide _); [|done]. apply uint8_get2.
Qed.

(** The eroded value is below every pixel of the window. *)
Lemma erode_px_le r c p v :
  p ∈ window5 r c → getZ m p.1 p.2 = Some v → erode_px m r c ≤ v.
Proof. apply fold_min_le. Qed.

Lemma erode_px_nonneg r c : uint8_raster m → 0 ≤ erode_px m r c.
Proof.
  intros Hm. apply fold_min_nonneg; [lia|].
  intros p v _ Hv. eapply uint8_getZ in Hv; [lia|done].
Qed.

Lemma centre_in_window5 r c : (Z.of_nat r + 0, Z.of_nat c + 0) ∈ window5 r c.
Proof. unfold window5, offsets5. simpl. set_solver. Qed.

Lemma getZ_of_nat r c : getZ m (Z.of_nat r + 0) (Z.of_nat c + 0) = get2 m r c.
Proof.
  unfold getZ. rewrite !Z.add_0_r, decide_True by lia. by rewrite !Nat2Z.id.
Qed.

Lemma get2_cv2_erode5 r c :
  get2 (cv2_erode5 m) r c = (λ _, erode_px m r c) <$> get2 m r c.
Proof. unfold cv2_erode5. apply (get2_imap (λ r c _, erode_px m r c)). Qed.

Lemma row_lengths_cv2_erode5 : row_lengths (cv2_erode5 m) = row_lengths m.
Proof.
  unfold row_lengths, cv2_erode5. apply list_eq. intros i.
  rewrite !list_lookup_fmap, list_lookup_imap.
  destruct (m !! i); simpl; [|done]. by rewrite length_imap.
Qed.

(** A pixel that is non-zero after the erosion has its whole window,
    as far as it lies inside the raster, non-zero before. *)
Lemma eroded_nonzero r c x p v :
  uint8_raster m →
  get2 (cv2_erode5 m) r c = Some x → x ≠ 0 →
  p ∈ window5 r c → getZ m p.1 p.2 = Some v → v ≠ 0.
Proof.
  intros Hm Hx Hne Hp Hv. rewrite get2_cv2_erode5 in Hx.
  destruct (get2 m r c); [|done]. injection Hx as <-.
  pose proof (erode_px_le r c p v Hp Hv).
  pose proof (erode_px_nonneg r c Hm). lia.
Qed.
End Erosion.

Lemma remove_mask_outliers_px (mask : raster) r c v :
  get2 (_remove_mask_outliers mask) r c = Some v →
  v = 0 ∨ get2 (cv2_erode5 mask) r c = Some v.
Proof.
  unfold _remove_mask_outliers.
  destruct (connectedComponentsWithStats _) as [[n labels] areas].
  intros (x & ig & Hx & _ & ->)%get2_zip_with.
  destruct ig; simpl; [left; lia | right; by rewrite Z.mul_1_r].
Qed.

(** C10: the cleaner never adds pixels: where its output is non-zero the
    input mask is non-zero. *)
Theorem cleaner_never_adds_pixels (mask : raster) (r c : nat) (v : Z) :
  uint8_raster mask →
  get2 (_remove_mask_outliers mask) r c = Some v → v ≠ 0 →
  ∃ v0, get2 mask r c = Some v0 ∧ v0 ≠ 0.
Proof.
  intros Hm Hv Hne.
  destruct (remove_mask_outliers_px mask r c v Hv) as [->|He]; [done|].
  destruct (get2 mask r c) as [v0|] eqn:Hv0.
  - exists v0. split; [done|].
    eapply (eroded_nonzero mask r c v _ v0 Hm He Hne (centre_in_window5 r c)).
    simpl. by rewrite getZ_of_nat.
  - by rewrite get2_cv2_erode5, Hv0 in He.
Qed.

Lemma uint8_blob_in h w r0 c0 bh bw : uint8_raster (blob_in h w r0 c0 bh bw).
Proof.
  unfold uint8_raster, blob_in. apply Forall_forall. intros row Hrow.
  apply elem_of_lookup_imap in Hrow as (r & [] & -> & _).
  apply Forall_forall. intros v Hv.
  apply elem_of_lookup_imap in Hv as (c & [] & -> & _).
  destruct (decide _); lia.
Qed.

Lemma cleaner_never_adds_pixels_witness :
  uint8_raster (blob_in 13 23 1 1 11 20)
  ∧ get2 (_remove_mask_outliers (blob_in 13 23 1 1 11 20)) 3 3 = Some 255
  ∧ ∃ v0, get2 (blob_in 13 23 1 1 11 20) 3 3 = Some v0 ∧ v0 ≠ 0.
Proof.
  assert (get2 (_remove_mask_outliers (blob_in 13 23 1 1 11 20)) 3 3 = Some 255)
    as Hout by (vm_compute; reflexivity).
  split; [apply uint8_blob_in|]. split; [exact Hout|].
  apply (cleaner_never_adds_pixels (blob_in 13 23 1 1 11 20) 3 3 255
           (uint8_blob_in _ _ _ _ _ _) Hout).
  discriminate.
Defined.

(** *** The labelling *)

Section Labelling.
Variable m : raster.
Local Abbreviation lab_inv := (MaskCleaner.lab_inv m).
Local Abbreviation scan_inv := (MaskCleaner.scan_inv m).

Lemma lab_inv_mono lab b b' : (b ≤ b')%nat → lab_inv lab b → lab_inv lab b'.
Proof.
  intros Hb [Hlen Hl]. split; [done|]. intros r c l H1 H2.
  destruct (Hl r c l H1 H2). split; [done|lia].
Qed.

Lemma lab_inv_set2 lab bound p l :
  lab_inv lab bound → is_fg m p = true → (l < bound)%nat →
  lab_inv (set2 lab p.1 p.2 l) bound.
Proof.
  intros [Hlen Hl] Hp Hlt. split; [by rewrite row_lengths_set2|].
  intros r c l'. rewrite get2_set2. destruct (decide _) as [[? ?]|_].
  - destruct (get2 lab r c); [|done]. intros [= <-] _.
    destruct p; simpl in *; subst. done.
  - apply Hl.
Qed.

Lemma flood_inv fuel lab work l bound :
  lab_inv lab bound → (l < bound)%nat → lab_inv (flood fuel m lab work l) bound.
Proof.
  revert lab work. induction fuel as [|fuel IH]; intros lab work Hinv Hl;
    simpl; [done|].
  destruct work as [|p work]; [done|].
  destruct (is_fg m p && unlabelled lab p) eqn:Hc.
  - apply andb_true_iff in Hc as [Hfg _]. apply IH; [|done].
    by apply lab_inv_set2.
  - by apply IH.
Qed.

Lemma unlabelled_get2 lab p : unlabelled lab p = true → get2 lab p.1 p.2 = Some O.
Proof.
  unfold unlabelled. by destruct (get2 lab p.1 p.2) as [[|?]|].
Qed.

(** Flooding never rewrites a label. *)
Lemma flood_keeps fuel lab work l q :
  labelled lab q → get2 (flood fuel m lab work l) q.1 q.2 = get2 lab q.1 q.2.
Proof.
  revert lab work. induction fuel as [|fuel IH]; intros lab work Hq;
    simpl; [done|].
  destruct work as [|p work]; [done|].
  destruct (is_fg m p && unlabelled lab p) eqn:Hc; [|by apply IH].
  apply andb_true_iff in Hc as [_ Hun%unlabelled_get2].
  destruct Hq as (l' & Hl' & Hne).
  assert (get2 (set2 lab p.1 p.2 l) q.1 q.2 = get2 lab q.1 q.2) as Hsame.
  { rewrite get2_set2. destruct (decide _) as [[Hr Hc]|]; [|done].
    rewrite Hr, Hc in Hun. congruence. }
  rewrite IH; [done|]. exists l'. by rewrite Hsame.
Qed.

Lemma flood_seed fuel lab p l :
  is_fg m p = true → unlabelled lab p = true → l ≠ O →
  get2 (flood (S fuel) m lab [p] l) p.1 p.2 = Some l.
Proof.
  intros Hfg Hun Hl. simpl. rewrite Hfg, Hun. simpl.
  assert (get2 (set2 lab p.1 p.2 l) p.1 p.2 = Some l) as Hset.
  { rewrite get2_set2, decide_True by done.
    by rewrite (unlabelled_get2 _ _ Hun). }
  rewrite flood_keeps; [done|]. by exists l.
Qed.

Lemma scan_step_inv visited st p :
  scan_inv visited st → scan_inv (p :: visited) (scan_step m st p).
Proof.
  destruct st as [lab next]. intros (Hinv & Hnext & Hvis). simpl in *.
  unfold MaskCleaner.scan_inv, scan_step.
  destruct (is_fg m p && unlabelled lab p) eqn:Hc; cbn [fst snd].
  - apply andb_true_iff in Hc as [Hfg Hun]. split; [|split; [lia|]].
    + apply flood_inv; [|lia]. apply (lab_inv_mono _ next); [lia|done].
    + intros q [->|Hq]%elem_of_cons Hq'.
      * exists next. split; [|lia]. unfold flood_fuel.
        rewrite Nat.add_1_r. apply flood_seed; [done..|lia].
      * destruct (Hvis q Hq Hq') as (l & Hl & Hne).
        exists l. split; [|done]. rewrite flood_keeps; [done|]. by exists l.
  - simpl. split; [done|]. split; [done|].
    intros q [Heq|Hq]%elem_of_cons Hq'; [subst q|by apply Hvis].
    rewrite Hq' in Hc. simpl in Hc.
    assert (is_Some (get2 lab p.1 p.2)) as [l Hl].
    { destruct Hinv as [Hlen _].
      apply (row_lengths_get2 m lab); [done|].
      unfold is_fg in Hq'. destruct (get2 m p.1 p.2); [eauto|done]. }
    exists l. split; [done|]. intros ->.
    unfold unlabelled in Hc. by rewrite Hl in Hc.
Qed.

Lemma scan_inv_foldl ps visited st :
  scan_inv visited st →
  scan_inv (reverse ps ++ visited) (foldl (scan_step m) st ps).
Proof.
  revert visited st. induction ps as [|p ps IH]; intros visited st Hst;
    simpl; [done|].
  rewrite reverse_cons, <- app_assoc. simpl. apply IH. by apply scan_step_inv.
Qed.

Lemma elem_of_pixels {A} (a : list (list A)) r c :
  is_Some (get2 a r c) → (r, c) ∈ pixels a.
Proof.
  intros [x (row & Hrow & Hx)%get2_Some]. unfold pixels.
  apply list_elem_of_join. exists (imap (λ c _, (r, c)) row). split.
  - apply elem_of_lookup_imap. eauto.
  - apply elem_of_lookup_imap. eauto.
Qed.

(** After the scan every non-zero pixel has a label in [1 .. n-1], and
    only non-zero pixels have one. *)
Lemma label_components_spec lab n :
  label_components m = (lab, n) →
  lab_inv lab n ∧ ∀ p, is_fg m p = true → labelled lab p.
Proof.
  unfold label_components. intros Hrun.
  pose proof (scan_inv_foldl (pixels m) [] (map (map (λ _, O)) m, 1%nat)) as H.
  rewrite Hrun in H. destruct H as (Hinv & _ & Hall).
  - split; [split|split; [done|]]; simpl.
    + unfold row_lengths. rewrite <- list_fmap_compose. apply list_fmap_ext.
      intros _ row _. simpl. apply length_map.
    + intros r c l. rewrite get2_map.
      destruct (get2 m r c); simpl; [|done]. by intros [= <-] ?.
    + by intros p ?%elem_of_nil.
  - split; [done|]. intros p Hp. apply Hall; [|done].
    rewrite app_nil_r, elem_of_reverse. destruct p as [r c].
    apply elem_of_pixels. unfold is_fg in Hp. simpl in Hp.
    destruct (get2 m r c); [eauto|done].
Qed.
End Labelling.

(** *** The fuel of the flood fill is enough *)

Lemma filter_length_lt {A} (P Q : A → bool) (l : list A) (p : A) :
  (∀ q, Q q = true → P q = true) →
  p ∈ l → P p = true → Q p = false →
  (length (filter (λ q, Q q = true) l) < length (filter (λ q, P q = true) l))%nat.
Proof.
  intros HQP Hin Hp Hq.
  assert (∀ k : list A, length (filter (λ q, Q q = true) k)
                        ≤ length (filter (λ q, P q = true) k))%nat as Hle.
  { induction k as [|x k IH]; [done|]. rewrite !filter_cons.
    destruct (decide (Q x = true)) as [Hx|]; destruct (decide (P x = true)) as [|Hx'];
      simpl; try lia.
    destruct Hx'. by apply HQP. }
  induction l as [|x l IH]; [by apply elem_of_nil in Hin|].
  rewrite !filter_cons. apply elem_of_cons in Hin as [<-|Hin].
  - rewrite (decide_False (P:=Q p = true)) by congruence.
    rewrite (decide_True (P:=P p = true)) by done.
    simpl. specialize (Hle l). lia.
  - specialize (IH Hin).
    destruct (decide (Q x = true)) as [Hx|]; destruct (decide (P x = true)) as [|Hx'];
      simpl; try lia.
    destruct Hx'. by apply HQP.
Qed.

Section FloodFuel.
Variable m : raster.

Lemma pending_set2 lab p l :
  l ≠ O → is_fg m p = true → unlabelled lab p = true →
  (pending m (set2 lab p.1 p.2 l) < pending m lab)%nat.
Proof.
  intros Hl Hfg Hun. unfold pending.
  apply (filter_length_lt (λ q, is_fg m q && unlabelled lab q)
           (λ q, is_fg m q && unlabelled (set2 lab p.1 p.2 l) q) _ p).
  - intros q [Hq Hu]%andb_true_iff. apply andb_true_iff. split; [done|].
    unfold unlabelled in *. rewrite get2_set2 in Hu.
    destruct (decide _) as [_|]; [|done].
    destruct (get2 lab q.1 q.2); simpl in Hu; [|done]. by destruct l.
  - destruct p as [r c]. apply elem_of_pixels. unfold is_fg in Hfg.
    simpl in *. destruct (get2 m r c); [eauto|done].
  - by rewrite Hfg, Hun.
  - apply andb_false_iff. right. unfold unlabelled.
    rewrite get2_set2, decide_True by done.
    rewrite (unlabelled_get2 _ _ Hun). simpl. by destruct l.
Qed.

Lemma length_neighbours4 p : (length (neighbours4 p) ≤ 4)%nat.
Proof. destruct p as [[|r] [|c]]; simpl; lia. Qed.

(** Fuel above [4 * pending + length work] is never used. *)
Lemma flood_fuel_enough fuel extra lab work l :
  l ≠ O →
  (4 * pending m lab + length work ≤ fuel)%nat →
  flood (fuel + extra) m lab work l = flood fuel m lab work l.
Proof.
  intros Hl. revert lab work.
  induction fuel as [|fuel IH]; intros lab work Hfuel.
  - destruct work; [|simpl in Hfuel; lia]. by destruct extra.
  - simpl. destruct work as [|p work]; [done|].
    destruct (is_fg m p && unlabelled lab p) eqn:Hc.
    + apply andb_true_iff in Hc as [Hfg Hun]. apply IH.
      pose proof (pending_set2 lab p l Hl Hfg Hun).
      pose proof (length_neighbours4 p).
      rewrite length_app. simpl in Hfuel. lia.
    + apply IH. simpl in Hfuel. lia.
Qed.

Lemma length_pixels {A} (a : list (list A)) : length (pixels a) = n_pixels a.
Proof.
  unfold pixels, n_pixels, row_lengths. rewrite length_join. f_equal.
  apply list_eq. intros i. rewrite !list_lookup_fmap, list_lookup_imap.
  destruct (a !! i); simpl; [|done]. by rewrite length_imap.
Qed.

Lemma pending_le lab : (pending m lab ≤ n_pixels m)%nat.
Proof. unfold pending. rewrite <- length_pixels. apply length_filter. Qed.

(** The fuel [label_components] gives to each flood fill is enough: more
    fuel gives the same labelling. *)
Lemma flood_fuel_suffices extra lab p l :
  l ≠ O →
  flood (flood_fuel m + extra) m lab [p] l = flood (flood_fuel m) m lab [p] l.
Proof.
  intros Hl. apply flood_fuel_enough; [done|].
  pose proof (pending_le lab). unfold flood_fuel. simpl. lia.
Qed.

End FloodFuel.

(** *** Counting pixels *)

Section Counting.
Context {A B : Type} (P : A → bool) (Q : B → bool).

Lemma count_row_le (ra : list A) (rb : list B) :
  length ra = length rb →
  (∀ c x y, ra !! c = Some x → rb !! c = Some y → P x = true → Q y = true) →
  (length (filter (λ x, P x = true) ra)
   ≤ length (filter (λ y, Q y = true) rb))%nat.
Proof.
  revert rb. induction ra as [|x ra IH]; intros [|y rb] Hlen Hpq;
    simpl in *; try done.
  rewrite !filter_cons.
  assert (length (filter (λ x, P x = true) ra)
          ≤ length (filter (λ y, Q y = true) rb))%nat as Hrest.
  { apply IH; [lia|]. intros c. apply (Hpq (S c)). }
  destruct (decide (P x = true)) as [Hp|], (decide (Q y = true)) as [|Hq];
    simpl; try lia.
  destruct Hq. by apply (Hpq 0%nat x y).
Qed.

Lemma count2_le (a : list (list A)) (b : list (list B)) :
  row_lengths a = row_lengths b →
  (∀ r c x y, get2 a r c = Some x → get2 b r c = Some y →
              P x = true → Q y = true) →
  (count2 P a ≤ count2 Q b)%nat.
Proof.
  unfold count2, row_lengths.
  revert b. induction a as [|ra a IH]; intros [|rb b] Hlen Hpq;
    simpl in *; try done.
  injection Hlen as Hrow Hlen.
  pose proof (count_row_le ra rb Hrow (Hpq 0%nat)) as H0.
  pose proof (IH b Hlen (λ r, Hpq (S r))) as H1. lia.
Qed.
End Counting.

Lemma elem_of_where_le (areas : list nat) (t l a : nat) :
  areas !! l = Some a → (a ≤ t)%nat → l ∈ where_le areas t.
Proof.
  intros Hl Ha. unfold where_le. apply list_elem_of_bind. exists (l, a). split.
  - simpl. rewrite decide_True by done. set_solver.
  - by apply (elem_of_lookup_imap_2 (λ i a, (i, a))).
Qed.

(** The erosion has no more non-zero pixels than the mask. *)
Lemma n_foreground_erode (mask : raster) :
  uint8_raster mask →
  (n_foreground (cv2_erode5 mask) ≤ n_foreground mask)%nat.
Proof.
  intros Hm. apply count2_le; [apply row_lengths_cv2_erode5|].
  intros r c x y Hx Hy Hnz. unfold nonzero in *.
  apply bool_decide_eq_true in Hnz. apply bool_decide_eq_true.
  eapply (eroded_nonzero mask r c x _ y Hm Hx Hnz (centre_in_window5 r c)).
  simpl. by rewrite getZ_of_nat.
Qed.

(** A label other than the background's covers at most as many pixels as
    the mask has non-zero ones. *)
Lemma label_area_le (m : raster) lab n l :
  label_components m = (lab, n) → l ≠ O →
  (count2 (Nat.eqb l) lab ≤ n_foreground m)%nat.
Proof.
  intros Hrun Hl.
  destruct (label_components_spec m lab n Hrun) as [[Hlen Hsound] _].
  apply count2_le; [done|].
  intros r c x y Hx Hy Heq%Nat.eqb_eq. subst x.
  destruct (Hsound r c l Hx Hl) as [Hfg _].
  unfold is_fg in Hfg. simpl in Hfg. by rewrite Hy in Hfg.
Qed.

(** A mask with at most [N_PIXELS_THRES] non-zero pixels is cleaned to
    zero everywhere. *)
Lemma small_mask_is_cleared (mask : raster) r c v :
  uint8_raster mask →
  (n_foreground mask ≤ N_PIXELS_THRES)%nat →
  get2 (_remove_mask_outliers mask) r c = Some v → v = 0.
Proof.
  intros Hm Hsmall. unfold _remove_mask_outliers, connectedComponentsWithStats.
  destruct (label_components (cv2_erode5 mask)) as [lab n] eqn:Hrun.
  intros (x & ig & Hx & Hig & ->)%get2_zip_with.
  rewrite get2_map in Hig.
  destruct (get2 lab r c) as [l|] eqn:Hl; [|done]. injection Hig as <-.
  destruct (decide (x = 0)) as [->|Hne]; [done|].
  destruct (label_components_spec _ lab n Hrun) as [[Hlen Hsound] Hall].
  destruct (Hall (r, c)) as (l' & Hl' & Hl0).
  { unfold is_fg. simpl. rewrite Hx. by apply bool_decide_eq_true. }
  simpl in Hl'. rewrite Hl in Hl'. injection Hl' as <-.
  destruct (Hsound r c l Hl Hl0) as [_ Hlt].
  rewrite bool_decide_eq_true_2; [simpl; lia|].
  eapply elem_of_where_le.
  - rewrite list_lookup_fmap, lookup_seq_lt by done. done.
  - simpl. etrans; [by eapply label_area_le|].
    etrans; [by apply n_foreground_erode|]. done.
Qed.

(** The labelling on a small mask: two pixels that touch share a label,
    diagonal neighbours do not. *)
Example label_components_sample :
  label_components [[255; 0; 255]; [255; 0; 0]; [0; 255; 255]]
  = ([[1; 0; 2]; [1; 0; 0]; [0; 3; 3]]%nat, 4%nat).
Proof. vm_compute. reflexivity. Qed.

(** A blob of 220 pixels keeps its eroded core of 7 x 16 pixels. *)
Example blob_of_220_is_eroded :
  _remove_mask_outliers (blob_in 13 23 1 1 11 20) = blob_in 13 23 3 3 7 16.
Proof. vm_compute. reflexivity. Qed.

(** C3, as stated, fails: a solid 10 x 20 blob (200 pixels, one component)
    with one pixel of background around it is eroded to 6 x 16 = 96 pixels
    and then removed; the cleaned mask is zero everywhere. *)
Lemma solid_blob_of_200_is_removed :
  let mask := blob_in 12 22 1 1 10 20 in
  n_foreground mask = 200%nat
  ∧ (label_components mask).2 = 2%nat
  ∧ _remove_mask_outliers mask = blob_in 12 22 0 0 0 0
  ∧ _remove_mask_outliers mask ≠ mask.
Proof. vm_compute. repeat split; discriminate. Qed.

(** C3 (amended): a mask with exactly one non-zero pixel is cleaned to
    zero everywhere.  A pixel is non-zero in the cleaned mask only if every
    pixel of its 5 x 5 neighbourhood inside the raster is non-zero in the
    input, so a 200-pixel blob is returned unchanged only when the erosion
    does not touch it, as for the 10 x 20 blob that fills its raster. *)
Theorem cleaner_on_one_pixel_and_on_blobs (mask : raster) :
  uint8_raster mask →
  (n_foreground mask = 1%nat →
   ∀ r c v, get2 (_remove_mask_outliers mask) r c = Some v → v = 0)
  ∧ (∀ r c v p v0,
       get2 (_remove_mask_outliers mask) r c = Some v → v ≠ 0 →
       p ∈ window5 r c → getZ mask p.1 p.2 = Some v0 → v0 ≠ 0)
  ∧ n_foreground (blob_in 10 20 0 0 10 20) = 200%nat
  ∧ _remove_mask_outliers (blob_in 10 20 0 0 10 20) = blob_in 10 20 0 0 10 20.
Proof.
  intros Hm. split; [|split; [|split]].
  - intros Hone r c v. apply small_mask_is_cleared; [done|].
    rewrite Hone. unfold N_PIXELS_THRES. lia.
  - intros r c v p v0 Hv Hne Hp Hv0.
    destruct (remove_mask_outliers_px mask r c v Hv) as [->|He]; [done|].
    by eapply (eroded_nonzero mask r c v p v0).
  - vm_compute. reflexivity.
  - vm_compute. reflexivity.
Qed.

Lemma cleaner_on_one_pixel_and_on_blobs_witness :
  let speck := blob_in 7 7 3 3 1 1 in
  uint8_raster speck
  ∧ n_foreground speck = 1%nat
  ∧ ∀ r c v, get2 (_remove_mask_outliers speck) r c = Some v → v = 0.
Proof.
  intros speck.
  assert (n_foreground speck = 1%nat) as Hone by (vm_compute; reflexivity).
  split; [apply uint8_blob_in|]. split; [exact Hone|].
  destruct (cleaner_on_one_pixel_and_on_blobs speck (uint8_blob_in _ _ _ _ _ _))
    as [Hclear _].
  exact (Hclear Hone).
Defined.

(** * Further properties *)

(** ** Tile canvas of the fetcher *)

Section TileGridFacts.
Import TileGrid.

Lemma length_py_slice {A} (l : list A) (s e : Z) :
  Z.of_nat (length (py_slice l s e))
  = Z.max 0 (slice_bound (Z.of_nat (length l)) e
             - slice_bound (Z.of_nat (length l)) s).
Proof.
  unfold py_slice. rewrite length_take, length_drop.
  unfold slice_bound. destruct (decide (e < 0)), (decide (s < 0)); lia.
Qed.

(** X1: the tile arithmetic of [main] passes its three assertions exactly
    when the bounds are ordered and neither the east edge [NE.x] nor the
    south edge [SW.y] is a multiple of the tile size.  The first assertion
    fails exactly when the bounds are not ordered; the assertion on the
    tile indexes can never be the one that fails; the assertion on the
    crop offsets fails exactly when the bounds are ordered and one of
    these two edges is a multiple of the tile size. *)
Theorem tile_grid_succeeds_iff (sw ne : Z * Z) :
  ((∃ g, tile_grid sw ne = Ok g) ↔
   sw.1 ≤ ne.1 ∧ ne.2 ≤ sw.2 ∧ ne.1 `mod` 256 ≠ 0 ∧ sw.2 `mod` 256 ≠ 0)
  ∧ (tile_grid_checked sw ne = inr BoundsOrdered ↔
     ¬ (sw.1 ≤ ne.1 ∧ ne.2 ≤ sw.2))
  ∧ tile_grid_checked sw ne ≠ inr IndexesOrdered
  ∧ (tile_grid_checked sw ne = inr OffsetsInTile ↔
     sw.1 ≤ ne.1 ∧ ne.2 ≤ sw.2
     ∧ (ne.1 `mod` 256 = 0 ∨ sw.2 `mod` 256 = 0)).
Proof.
  unfold tile_grid, tile_grid_checked, OSM_TILE_SIZE. cbn [fst snd].
  pose proof (Z.div_mod sw.1 256). pose proof (Z.div_mod ne.1 256).
  pose proof (Z.div_mod sw.2 256). pose proof (Z.div_mod ne.2 256).
  pose proof (Z.mod_pos_bound sw.1 256). pose proof (Z.mod_pos_bound ne.1 256).
  pose proof (Z.mod_pos_bound sw.2 256). pose proof (Z.mod_pos_bound ne.2 256).
  destruct (decide (sw.1 ≤ ne.1 ∧ ne.2 ≤ sw.2)) as [[Hx Hy]|Hord].
  - pose proof (Z.div_le_mono sw.1 ne.1 256 ltac:(lia) Hx).
    pose proof (Z.div_le_mono ne.2 sw.2 256 ltac:(lia) Hy).
    rewrite decide_True by done.
    destruct (decide _) as [Hoff|Hoff].
    + split; [split; [lia | eauto]|].
      split; [split; [discriminate | lia]|].
      split; [discriminate|]. split; [discriminate | lia].
    + split; [split; [intros [g Hg]; discriminate Hg | lia]|].
      split; [split; [discriminate | lia]|].
      split; [discriminate|]. split; [lia | reflexivity].
  - split; [split; [intros [g Hg]; discriminate Hg | lia]|].
    split; [split; [done | reflexivity]|].
    split; [discriminate|]. split; [discriminate | lia].
Qed.

(** The fields of a grid that passed the assertions. *)
Lemma tile_grid_Ok (sw ne : Z * Z) (g : grid) :
  tile_grid sw ne = Ok g →
  sw.1 ≤ ne.1 ∧ ne.2 ≤ sw.2
  ∧ 0 ≤ (tl_offset g).1 < 256 ∧ 0 ≤ (tl_offset g).2 < 256
  ∧ -256 < (br_offset g).1 < 0 ∧ -256 < (br_offset g).2 < 0
  ∧ 1 ≤ n_x_imgs g ∧ 1 ≤ n_y_imgs g
  ∧ width g = n_x_imgs g * 256 ∧ height g = n_y_imgs g * 256
  ∧ width g + (br_offset g).1 - (tl_offset g).1 = ne.1 - sw.1
  ∧ height g + (br_offset g).2 - (tl_offset g).2 = sw.2 - ne.2
  ∧ pastes g =
      (i ← py_range (sw.1 / 256) (sw.1 / 256 + n_x_imgs g);
       j ← py_range (ne.2 / 256) (ne.2 / 256 + n_y_imgs g);
       [(i, j, (i - sw.1 / 256) * 256, (j - ne.2 / 256) * 256)]).
Proof.
  unfold tile_grid, tile_grid_checked, OSM_TILE_SIZE. cbn [fst snd].
  pose proof (Z.div_mod sw.1 256). pose proof (Z.div_mod ne.1 256).
  pose proof (Z.div_mod sw.2 256). pose proof (Z.div_mod ne.2 256).
  pose proof (Z.mod_pos_bound sw.1 256). pose proof (Z.mod_pos_bound ne.1 256).
  pose proof (Z.mod_pos_bound sw.2 256). pose proof (Z.mod_pos_bound ne.2 256).
  destruct (decide (sw.1 ≤ ne.1 ∧ ne.2 ≤ sw.2)) as [[Hx Hy]|]; [|discriminate].
  destruct (decide _) as [[Hix Hiy]|]; [|discriminate].
  destruct (decide _) as [Hoff|]; [|discriminate].
  intros [= <-]. cbn [tl_offset br_offset n_x_imgs n_y_imgs width height pastes
                      fst snd].
  repeat split; try lia.
  replace (sw.1 / 256 + (ne.1 / 256 - sw.1 / 256 + 1)) with (ne.1 / 256 + 1)
    by lia.
  replace (ne.2 / 256 + (sw.2 / 256 - ne.2 / 256 + 1)) with (sw.2 / 256 + 1)
    by lia.
  reflexivity.
Qed.

(** X2: when the assertions pass, the crop of the stitched canvas has
    [SW.y - NE.y] rows of [NE.x - SW.x] pixels: the pixel extent of the
    bounds, without the row and the column of the far edges. *)
Theorem crop_has_the_extent_of_the_bounds {A} (sw ne : Z * Z) (g : grid)
    (osm_img : list (list A)) :
  tile_grid sw ne = Ok g →
  Z.of_nat (length osm_img) = height g →
  Forall (λ row, Z.of_nat (length row) = width g) osm_img →
  Z.of_nat (length (crop osm_img g)) = sw.2 - ne.2
  ∧ Forall (λ row, Z.of_nat (length row) = ne.1 - sw.1) (crop osm_img g).
Proof.
  intros Hg Hh Hw.
  destruct (tile_grid_Ok sw ne g Hg)
    as (Hox & Hoy & Htx & Hty & Hbx & Hby & Hnx & Hny & Hwd & Hht & Hcx & Hcy & _).
  unfold crop. split.
  - rewrite length_fmap, length_py_slice, Hh. unfold slice_bound.
    rewrite decide_True by lia. rewrite decide_False by lia. lia.
  - apply Forall_fmap. apply Forall_forall. intros row Hrow. simpl.
    assert (Z.of_nat (length row) = width g) as Hr.
    { unfold py_slice in Hrow. apply subseteq_take, subseteq_drop in Hrow.
      by eapply Forall_forall in Hw. }
    rewrite length_py_slice, Hr. unfold slice_bound.
    rewrite decide_True by lia. rewrite decide_False by lia. lia.
Qed.



End TileGridFacts.

Lemma crop_has_the_extent_of_the_bounds_witness :
  let canvas : raster := replicate 512 (replicate 512 0) in
  ∃ g, TileGrid.tile_grid (300, 700) (600, 400) = Ok g
       ∧ Z.of_nat (length (TileGrid.crop canvas g)) = 300.
Proof.
  intros canvas.
  destruct (TileGrid.tile_grid (300, 700) (600, 400)) as [g|e] eqn:Hg;
    [|exfalso; vm_compute in Hg; discriminate Hg].
  exists g. split; [reflexivity|].
  apply (crop_has_the_extent_of_the_bounds (300, 700) (600, 400) g canvas Hg).
  - vm_compute in Hg. injection Hg as <-. reflexivity.
  - vm_compute in Hg. injection Hg as <-.
    apply Forall_replicate. reflexivity.
Defined.


(** ** Tile fetcher: the file cache *)

Section FetcherCache.
Import TileFetcher.

(** X4: once the loop has returned a tile, every later call of
    [get_tile_img] for it returns the same image from the file without
    downloading, sleeping or logging, whatever the server would answer. *)
Theorem fetched_tile_is_served_from_file (server server' : nat → fetch_outcome)
    (fuel : nat) (w w' : world) (img : bgr_image) :
  fetch_patch server fuel w = Some (img, w') →
  get_tile_img server' w' = (Some img, w').
Proof.
  intros Hrun. pose proof (fetch_patch_returns_the_file _ _ _ _ _ Hrun) as Hd.
  unfold get_tile_img. rewrite Hd. cbn zeta iota.
  unfold cv2_imread. by rewrite Hd.
Qed.

(** X5: a download that leaves a file which does not decode (a body that
    is not an image, or a copy cut short) wedges the loop: the call sleeps
    once, and from then on every call returns [None] without touching the
    network, the clock or the log, so the loop never ends, whatever the
    server would answer later. *)
Theorem undecodable_download_wedges_the_loop (server : nat → fetch_outcome)
    (w : world) :
  disk w = None →
  server (attempts w) = Stored None ∨ server (attempts w) = CopyRaises None →
  let w1 := (get_tile_img server w).2 in
  attempts w1 = S (attempts w) ∧ slept w1 = S (slept w)
  ∧ (∀ server', get_tile_img server' w1 = (None, w1))
  ∧ ∀ fuel, fetch_patch server fuel w = None.
Proof.
  intros Hd Hbad.
  assert (∃ lg, get_tile_img server w
                = (None, World (Some None) (S (attempts w)) (S (slept w)) lg))
    as [lg Hg].
  { unfold get_tile_img, cv2_imread. rewrite Hd.
    destruct Hbad as [-> | ->]; simpl; eauto. }
  rewrite Hg. cbn [snd attempts slept].
  split; [reflexivity|]. split; [reflexivity|]. split.
  - intros server'. reflexivity.
  - intros [|fuel]; [done|]. rewrite fetch_patch_S, Hg.
    by apply fetch_patch_stuck_on_bad_file.
Qed.
End FetcherCache.

Lemma fetched_tile_is_served_from_file_witness :
  let server := λ n : nat,
    if decide (n < 2)%nat then TileFetcher.GetRaises
    else TileFetcher.Stored (Some water_tile) in
  let w' := TileFetcher.World (Some (Some water_tile)) 3 3 2 in
  TileFetcher.fetch_patch server 3 TileFetcher.fresh = Some (water_tile, w')
  ∧ TileFetcher.get_tile_img TileFetcher.always_failing w' = (Some water_tile, w').
Proof.
  intros server w'.
  assert (TileFetcher.fetch_patch server 3 TileFetcher.fresh
          = Some (water_tile, w')) as Hrun by reflexivity.
  split; [exact Hrun|].
  exact (fetched_tile_is_served_from_file server TileFetcher.always_failing 3
           TileFetcher.fresh w' water_tile Hrun).
Defined.

Lemma undecodable_download_wedges_the_loop_witness :
  let server := λ n : nat,
    match n with
    | O => TileFetcher.Stored None
    | _ => TileFetcher.Stored (Some water_tile)
    end in
  TileFetcher.disk TileFetcher.fresh = None
  ∧ ∀ fuel, TileFetcher.fetch_patch server fuel TileFetcher.fresh = None.
Proof.
  intros server. split; [reflexivity|].
  apply (undecodable_download_wedges_the_loop server TileFetcher.fresh).
  - reflexivity.
  - left. reflexivity.
Defined.

(** ** Feature classifier: agreement between the layers *)

Lemma tag_equals_one (tags : tagmap) key v :
  _tag_equals tags key (Some [v]) = true ↔ tags !! key = Some v.
Proof.
  unfold _tag_equals. destruct (tags !! key) as [v'|]; [|done].
  rewrite bool_decide_eq_true, list_elem_of_singleton. split; congruence.
Qed.

Lemma tag_equals_one_false (tags : tagmap) key v :
  _tag_equals tags key (Some [v]) = false ↔ tags !! key ≠ Some v.
Proof.
  rewrite <- tag_equals_one. by destruct (_tag_equals _ _ _).
Qed.

Section ClassifierLayers.
Variable int_float_half : string → option Z.
Local Abbreviation color := (_get_footprint_color int_float_half).

(** The segmentation class never raises and is 0, 2 or 4; the contour flag
    never raises, is 0 or 1, and is 1 only for class 2. *)
Lemma seg_and_contour_colors (tags : tagmap) :
  ∃ v b, color "seg_map" tags = Ok (Some v)
         ∧ color "footprint_contour" tags = Ok (Some b)
         ∧ (v = 0 ∨ v = 2 ∨ v = 4) ∧ (b = 0 ∨ b = 1) ∧ (b = 1 → v = 2).
Proof.
  unfold _get_footprint_color.
  rewrite (decide_False (P:="seg_map" = "height_field")) by done.
  rewrite (decide_True (P:="seg_map" = "seg_map")) by done.
  rewrite (decide_False (P:="footprint_contour" = "height_field")) by done.
  rewrite (decide_False (P:="footprint_contour" = "seg_map")) by done.
  rewrite (decide_True (P:="footprint_contour" = "footprint_contour")) by done.
  destruct (_tag_equals tags "role" (Some ["inner"])),
    (_tag_equals tags "building" None),
    (_tag_equals tags "landuse" (Some ["construction"])); eexists _, _;
    (split; [reflexivity|]); (split; [reflexivity|]); lia.
Qed.

(** X6: a footprint that the height field skips (a polygon hole or a roof)
    is always class 2, building, in the segmentation map. *)
Theorem skipped_height_is_building_class (tags : tagmap) :
  _get_footprint_color int_float_half "height_field" tags = Ok None → _get_footprint_color int_float_half "seg_map" tags = Ok (Some 2).
Proof.
  unfold _get_footprint_color.
  rewrite (decide_True (P:="height_field" = "height_field")) by done.
  rewrite (decide_False (P:="seg_map" = "height_field")) by done.
  rewrite (decide_True (P:="seg_map" = "seg_map")) by done.
  destruct (_tag_equals tags "role" (Some ["inner"])) eqn:Hrole; [done|].
  destruct (_tag_equals tags "building" (Some ["roof"])) eqn:Hroof.
  - intros _. apply tag_equals_one in Hroof.
    by rewrite tag_equals_any, Hroof, bool_decide_eq_true_2.
  - destruct (_tag_equals tags "landuse" (Some ["construction"])); [done|].
    destruct (tags !! "height") as [s|]; [|done].
    by destruct (int_float_half s).
Qed.

(** X7: a footprint of segmentation class 4 (construction) always gets the
    nominal height 10, whatever its [height] tag says or lacks. *)
Theorem construction_class_has_height_10 (tags : tagmap) :
  _get_footprint_color int_float_half "seg_map" tags = Ok (Some 4) → _get_footprint_color int_float_half "height_field" tags = Ok (Some 10).
Proof.
  unfold _get_footprint_color.
  rewrite (decide_True (P:="height_field" = "height_field")) by done.
  rewrite (decide_False (P:="seg_map" = "height_field")) by done.
  rewrite (decide_True (P:="seg_map" = "seg_map")) by done.
  destruct (_tag_equals tags "role" (Some ["inner"])); [done|].
  rewrite tag_equals_any.
  destruct (bool_decide (is_Some (tags !! "building"))) eqn:Hb; [done|].
  apply bool_decide_eq_false in Hb.
  destruct (_tag_equals tags "building" (Some ["roof"])) eqn:Hroof.
  { apply tag_equals_one in Hroof. destruct Hb. eauto. }
  by destruct (_tag_equals tags "landuse" (Some ["construction"])).
Qed.

(** X8: the height of a footprint fails with an assertion error exactly
    when the [height] tag is missing and the footprint is neither a hole,
    nor a roof, nor under construction. *)
Theorem height_assertion_fails_iff (tags : tagmap) :
  _get_footprint_color int_float_half "height_field" tags = Raise AssertionError ↔
  tags !! "height" = None
  ∧ tags !! "role" ≠ Some "inner"
  ∧ tags !! "building" ≠ Some "roof"
  ∧ tags !! "landuse" ≠ Some "construction".
Proof.
  unfold _get_footprint_color.
  rewrite (decide_True (P:="height_field" = "height_field")) by done.
  rewrite <- !tag_equals_one_false.
  destruct (_tag_equals tags "role" (Some ["inner"]));
    [by split; [|intros (_ & ? & _)]|].
  destruct (_tag_equals tags "building" (Some ["roof"]));
    [by split; [|intros (_ & _ & ? & _)]|].
  destruct (_tag_equals tags "landuse" (Some ["construction"]));
    [by split; [|intros (_ & _ & _ & ?)]|].
  destruct (tags !! "height") as [s|].
  - split; [|by intros [? _]]. by destruct (int_float_half s).
  - done.
Qed.
End ClassifierLayers.

Lemma skipped_height_is_building_class_witness :
  let roof : tagmap := {[ "building" := "roof" ]} in
  _get_footprint_color (λ _, None) "height_field" roof = Ok None
  ∧ _get_footprint_color (λ _, None) "seg_map" roof = Ok (Some 2).
Proof.
  intros roof.
  assert (_get_footprint_color (λ _, None) "height_field" roof = Ok None)
    as Hskip by (vm_compute; reflexivity).
  split; [exact Hskip|].
  exact (skipped_height_is_building_class (λ _, None) roof Hskip).
Defined.

Lemma construction_class_has_height_10_witness :
  let site : tagmap := {[ "landuse" := "construction"; "height" := "31" ]} in
  _get_footprint_color (λ _, Some 31) "seg_map" site = Ok (Some 4)
  ∧ _get_footprint_color (λ _, Some 31) "height_field" site = Ok (Some 10).
Proof.
  intros site.
  assert (_get_footprint_color (λ _, Some 31) "seg_map" site = Ok (Some 4))
    as Hseg by (vm_compute; reflexivity).
  split; [exact Hseg|].
  exact (construction_class_has_height_10 (λ _, Some 31) site Hseg).
Defined.

(** ** Layer compositor: shapes, classes and failures *)

Lemma plot_footprints_row_lengths map_name colors (m m' : raster) fps :
  plot_footprints map_name colors m fps = Ok m' → row_lengths m' = row_lengths m.
Proof.
  revert m. induction fps as [|fp fps IH]; intros m; simpl.
  - by intros [= <-].
  - destruct (colors map_name (tags fp)) as [[v|]|]; simpl; [| |done].
    + intros H%IH. by rewrite H, row_lengths_fill.
    + apply IH.
Qed.

(** The stroking call paints the outlines as the filling call paints the
    covers. *)
Lemma plot_footprint_outlines_stroked map_name colors (m : raster) fps :
  plot_footprint_outlines map_name colors m fps
  = plot_footprints map_name colors m (stroked <$> fps).
Proof.
  revert m. induction fps as [|fp fps IH]; intros m; simpl; [done|].
  destruct (colors map_name (tags fp)) as [[v|]|]; simpl; auto.
Qed.

Lemma row_lengths_replace_eq (a : raster) old new :
  row_lengths (replace_eq a old new) = row_lengths a.
Proof.
  unfold row_lengths, replace_eq. rewrite <- list_fmap_compose.
  apply list_fmap_ext. intros _ row _. simpl. apply length_map.
Qed.

Lemma row_lengths_get_empty_map h w :
  row_lengths (get_empty_map h w) = replicate h w.
Proof.
  unfold row_lengths, get_empty_map. rewrite fmap_replicate.
  by rewrite length_replicate.
Qed.

Lemma plot_footprints_total map_name colors (m : raster) fps :
  (∀ f, f ∈ fps → ∃ o, colors map_name (tags f) = Ok o) →
  ∃ m', plot_footprints map_name colors m fps = Ok m'.
Proof.
  revert m. induction fps as [|fp fps IH]; intros m Hok; simpl; [eauto|].
  destruct (Hok fp) as [o ->]; [left|]. simpl.
  destruct o; apply IH; intros; apply Hok; by right.
Qed.

Lemma plot_highways_total map_name (m : raster) hws :
  map_name = "seg_map" ∨ map_name = "height_field" →
  ∃ m', plot_highways map_name _get_highway_color m hws = Ok m'.
Proof.
  intros Hname. revert m. induction hws as [|hw hws IH]; intros m; simpl; [eauto|].
  destruct Hname as [-> | ->]; apply IH.
Qed.

Section CompositorFacts.
Variable int_float_half : string → option Z.
Variable cv2_resize : raster → nat * nat → raster.
Local Abbreviation color := (_get_footprint_color int_float_half).

Lemma seg_map_before_footprints_row_lengths highways xy_bounds tile
    (seg : raster) cz gl :
  seg_map_before_footprints cv2_resize highways xy_bounds tile = Ok (seg, cz, gl) →
  row_lengths seg = replicate xy_bounds.1 xy_bounds.2.
Proof.
  unfold seg_map_before_footprints. intros Hrun.
  destruct (plot_highways "seg_map" _ _ _) as [s1|] eqn:H1; [|done].
  apply plot_highways_row_lengths in H1.
  rewrite row_lengths_get_empty_map in H1. simpl in Hrun.
  destruct tile as [tile_img|]; [|by injection Hrun as <- <- <-].
  destruct (get_green_lands _ _ _) as [g|]; [|done]. simpl in Hrun.
  destruct (assign_where s1 g 3) as [s2|] eqn:H2; [|done]. simpl in Hrun.
  destruct (assign_where s2 _ 5) as [s3|] eqn:H3; [|done]. simpl in Hrun.
  injection Hrun as <- <- <-.
  by rewrite (row_lengths_assign_where _ _ _ _ H3),
    (row_lengths_assign_where _ _ _ _ H2).
Qed.

Lemma height_field_before_footprints_row_lengths highways xy_bounds cz gl
    (hf : raster) :
  height_field_before_footprints highways xy_bounds cz gl = Ok hf →
  row_lengths hf = replicate xy_bounds.1 xy_bounds.2.
Proof.
  unfold height_field_before_footprints. intros Hrun.
  destruct (plot_highways "height_field" _ _ _) as [h1|] eqn:H1; [|done].
  apply plot_highways_row_lengths in H1.
  rewrite row_lengths_get_empty_map in H1. simpl in Hrun.
  assert (row_lengths (replace_eq h1 0 4) = replicate xy_bounds.1 xy_bounds.2)
    as H2 by by rewrite row_lengths_replace_eq.
  set (h2 := replace_eq h1 0 4) in *. clearbody h2.
  assert (∃ h3, match cz with
                | Some c => assign_where h2 c 0
                | None => Ok h2
                end = Ok h3 ∧ row_lengths h3 = replicate xy_bounds.1 xy_bounds.2
                ∧ match gl with
                  | Some g => assign_where h3 g 8
                  | None => Ok h3
                  end = Ok hf) as (h3 & _ & H3 & H4).
  { destruct cz as [c|]; simpl in Hrun.
    - destruct (assign_where h2 c 0) as [h3|] eqn:Ha; [|done].
      exists h3. split; [done|]. split; [|done].
      by rewrite (row_lengths_assign_where _ _ _ _ Ha).
    - exists h2. done. }
  destruct gl as [g|].
  - by rewrite (row_lengths_assign_where _ _ _ _ H4).
  - by injection H4 as <-.
Qed.

(** X9: the three rasters that [get_osm_images] returns have the same
    shape, the one of the pixel bounding box. *)
Theorem rasters_share_the_bounding_box (highways footprints : list feature)
    (xy_bounds : nat * nat) (osm_tile_img : option bgr_image)
    (height_field seg_map contour : raster) :
  get_osm_images int_float_half cv2_resize highways footprints xy_bounds
    osm_tile_img = Ok (height_field, seg_map, contour) →
  row_lengths height_field = replicate xy_bounds.1 xy_bounds.2
  ∧ row_lengths seg_map = replicate xy_bounds.1 xy_bounds.2
  ∧ row_lengths contour = replicate xy_bounds.1 xy_bounds.2.
Proof.
  unfold get_osm_images, compose_height_field. intros Hrun.
  destruct (seg_map_before_footprints _ _ _ _) as [[[s0 cz] gl]|] eqn:H0; [|done].
  apply seg_map_before_footprints_row_lengths in H0. simpl in Hrun.
  destruct (plot_footprints "seg_map" _ _ _) as [s1|] eqn:H1; [|done].
  apply plot_footprints_row_lengths in H1. simpl in Hrun.
  destruct (plot_footprint_outlines "footprint_contour" _ _ _) as [ct|] eqn:H2;
    [|done].
  rewrite plot_footprint_outlines_stroked in H2.
  apply plot_footprints_row_lengths in H2. simpl in Hrun.
  destruct (height_field_before_footprints _ _ _ _) as [h0|] eqn:H3; [|done].
  apply height_field_before_footprints_row_lengths in H3. simpl in Hrun.
  destruct (plot_footprints "height_field" _ _ _) as [h1|] eqn:H4; [|done].
  apply plot_footprints_row_lengths in H4. simpl in Hrun.
  injection Hrun as <- <- <-.
  rewrite row_lengths_replace_eq, H1, H2, H4, row_lengths_get_empty_map. done.
Qed.

(** X10: without a tile image, a footprint whose height is asserted but
    missing aborts the whole tile with an assertion error, although the
    segmentation map and the contour could be painted: no raster is
    returned. *)
Theorem footprint_without_height_aborts_the_tile (highways : list feature)
    (fs1 fs2 : list feature) (fp : feature) (xy_bounds : nat * nat) :
  (∀ f, f ∈ fs1 → ∃ o, color "height_field" (tags f) = Ok o) →
  color "height_field" (tags fp) = Raise AssertionError →
  get_osm_images int_float_half cv2_resize highways (fs1 ++ fp :: fs2)
    xy_bounds None = Raise AssertionError.
Proof.
  intros Hfs1 Hfp.
  unfold get_osm_images, compose_height_field, seg_map_before_footprints,
    height_field_before_footprints.
  destruct (plot_highways_total "seg_map"
              (get_empty_map xy_bounds.1 xy_bounds.2) highways) as [s0 ->];
    [by left|]. simpl.
  destruct (plot_footprints_total "seg_map" color s0 (fs1 ++ fp :: fs2))
    as [s1 ->].
  { intros f _. destruct (seg_and_contour_colors int_float_half (tags f))
      as (v & b & -> & _). eauto. }
  simpl.
  rewrite plot_footprint_outlines_stroked.
  destruct (plot_footprints_total "footprint_contour" color
              (get_empty_map xy_bounds.1 xy_bounds.2)
              (stroked <$> fs1 ++ fp :: fs2))
    as [ct ->].
  { intros f _. destruct (seg_and_contour_colors int_float_half (tags f))
      as (v & b & _ & -> & _). eauto. }
  simpl.
  destruct (plot_highways_total "height_field"
              (get_empty_map xy_bounds.1 xy_bounds.2) highways) as [h0 ->];
    [by right|]. simpl.
  rewrite plot_footprints_app.
  destruct (plot_footprints_total "height_field" color (replace_eq h0 0 4) fs1
              Hfs1) as [h1 ->].
  simpl. by rewrite Hfp.
Qed.
End CompositorFacts.

(** ** Layer compositor: the values of the layers *)

Section PixelInvariants.
Variable P : Z → Prop.

Lemma fill_all_px (m : raster) ps v : P v → all_px P m → all_px P (fill m ps v).
Proof.
  intros Hv Hm r c x Hx. destruct (get2 m r c) as [y|] eqn:Hy.
  - rewrite (get2_fill _ _ _ _ _ _ Hy) in Hx. injection Hx as <-.
    destruct (bool_decide _); [done | by eapply Hm].
  - by rewrite get2_fill_None in Hx.
Qed.

Lemma plot_highways_all_px map_name colors (m m' : raster) hws :
  (∀ t v, colors map_name t = Ok v → P v) →
  all_px P m → plot_highways map_name colors m hws = Ok m' → all_px P m'.
Proof.
  intros Hcol. revert m. induction hws as [|hw hws IH]; intros m Hm; simpl.
  - by intros [= <-].
  - destruct (colors map_name (tags hw)) as [v|] eqn:Hv; simpl; [|done].
    apply IH. apply fill_all_px; [by eapply Hcol | done].
Qed.

Lemma plot_footprints_all_px map_name colors (m m' : raster) fps :
  (∀ t v, colors map_name t = Ok (Some v) → P v) →
  all_px P m → plot_footprints map_name colors m fps = Ok m' → all_px P m'.
Proof.
  intros Hcol. revert m. induction fps as [|fp fps IH]; intros m Hm; simpl.
  - by intros [= <-].
  - destruct (colors map_name (tags fp)) as [[v|]|] eqn:Hv; simpl; [| |done].
    + apply IH. apply fill_all_px; [by eapply Hcol | done].
    + by apply IH.
Qed.

Lemma assign_where_all_px (a mask a' : raster) v :
  P v → all_px P a → assign_where a mask v = Ok a' → all_px P a'.
Proof.
  intros Hv Ha Hrun r c y Hy.
  destruct (get2_assign_where_inv _ _ _ _ _ _ _ Hrun Hy) as (x & Hx & ->).
  destruct (mask_on _ _ _); [done | by eapply Ha].
Qed.
End PixelInvariants.

Section LayerValues.
Variable int_float_half : string → option Z.
Variable cv2_resize : raster → nat * nat → raster.
Local Abbreviation color := (_get_footprint_color int_float_half).

Lemma all_px_get_empty_map (P : Z → Prop) h w : P 0 → all_px P (get_empty_map h w).
Proof. intros H0 r c x Hx. by rewrite (get2_get_empty_map _ _ _ _ _ Hx). Qed.

Lemma highway_seg_color t v : _get_highway_color "seg_map" t = Ok v → v = 1.
Proof. unfold _get_highway_color. simpl. by intros [= <-]. Qed.

Lemma footprint_seg_color t v :
  color "seg_map" t = Ok (Some v) → v = 0 ∨ v = 2 ∨ v = 4.
Proof.
  destruct (seg_and_contour_colors int_float_half t) as (v' & b & -> & _ & H & _).
  by intros [= <-].
Qed.

(** X11: the segmentation map that [get_osm_images] returns holds classes
    1 to 6 only, and neither 3 (green land) nor 5 (coast) when there is no
    tile image. *)
Theorem seg_map_classes (highways footprints : list feature)
    (xy_bounds : nat * nat) (osm_tile_img : option bgr_image)
    (height_field seg_map contour : raster) (r c : nat) (v : Z) :
  get_osm_images int_float_half cv2_resize highways footprints xy_bounds
    osm_tile_img = Ok (height_field, seg_map, contour) →
  get2 seg_map r c = Some v →
  1 ≤ v ≤ 6 ∧ (osm_tile_img = None → v ≠ 3 ∧ v ≠ 5).
Proof.
  unfold get_osm_images. intros Hrun Hv.
  set (P := λ x : Z, 0 ≤ x ≤ 5 ∧ (osm_tile_img = None → x ≠ 3 ∧ x ≠ 5)).
  destruct (seg_map_before_footprints _ _ _ _) as [[[s0 cz] gl]|] eqn:H0; [|done].
  simpl in Hrun.
  destruct (plot_footprints "seg_map" _ _ _) as [s1|] eqn:H1; [|done].
  simpl in Hrun.
  destruct (plot_footprint_outlines "footprint_contour" _ _ _) as [ct|];
    [|done].
  simpl in Hrun.
  destruct (compose_height_field _ _ _ _ _ _) as [hf|]; [|done].
  simpl in Hrun. injection Hrun as <- <- <-.
  assert (all_px P s0) as Hs0.
  { unfold seg_map_before_footprints in H0.
    destruct (plot_highways "seg_map" _ _ _) as [p1|] eqn:Hp1; [|done].
    assert (all_px P p1) as Hp.
    { eapply (plot_highways_all_px P); [| |exact Hp1].
      - intros t x ->%highway_seg_color. unfold P. lia.
      - apply all_px_get_empty_map. unfold P. lia. }
    simpl in H0. destruct osm_tile_img as [tile_img|].
    - destruct (get_green_lands _ _ _) as [g|]; [|done]. simpl in H0.
      destruct (assign_where p1 g 3) as [p2|] eqn:Hp2; [|done]. simpl in H0.
      destruct (assign_where p2 _ 5) as [p3|] eqn:Hp3; [|done]. simpl in H0.
      injection H0 as <- <- <-.
      eapply (assign_where_all_px P); [| |exact Hp3]; [unfold P; split; [lia|done]|].
      eapply (assign_where_all_px P); [| |exact Hp2]; [unfold P; split; [lia|done]|].
      done.
    - by injection H0 as <- <- <-. }
  assert (all_px P s1) as Hs1.
  { eapply (plot_footprints_all_px P); [|exact Hs0|exact H1].
    intros t x Hx%footprint_seg_color. unfold P. lia. }
  rewrite get2_replace_eq in Hv.
  destruct (get2 s1 r c) as [x|] eqn:Hx; [|done]. injection Hv as <-.
  destruct (Hs1 r c x Hx) as [Hr Hn].
  destruct (decide (x = 0)); [lia|]. split; [lia|done].
Qed.

(** A value read in a painted raster is the one that was there or the
    colour of a footprint that covers the pixel. *)
Lemma plot_footprints_value map_name colors (m m' : raster) fps r c y :
  plot_footprints map_name colors m fps = Ok m' →
  get2 m' r c = Some y →
  get2 m r c = Some y
  ∨ ∃ fp, fp ∈ fps ∧ (r, c) ∈ cover fp ∧ colors map_name (tags fp) = Ok (Some y).
Proof.
  revert m. induction fps as [|fp fps IH]; intros m; simpl.
  - intros [= <-]. by left.
  - destruct (colors map_name (tags fp)) as [[v|]|] eqn:Hc; simpl; [| |done].
    + intros Hrun Hy. destruct (IH _ Hrun Hy) as [Hf|(fp' & Hin & Hcov & Hcol)].
      * destruct (get2 m r c) as [x|] eqn:Hx.
        -- rewrite (get2_fill _ _ _ _ _ _ Hx) in Hf. injection Hf as <-.
           case_bool_decide as Hcov.
           ++ right. exists fp. split; [left|]. done.
           ++ by left.
        -- by rewrite get2_fill_None in Hf.
      * right. exists fp'. split; [by right|done].
    + intros Hrun Hy. destruct (IH _ Hrun Hy) as [Hf|(fp' & Hin & Hcov & Hcol)].
      * by left.
      * right. exists fp'. split; [by right|done].
Qed.

(** X12: the footprint contour is binary, and every pixel where it is 1
    lies on the outline of a footprint that has a [building] tag, which
    the classifier gives class 2 (building) for the segmentation map. *)
Theorem contour_pixels_lie_on_building_outlines
    (highways footprints : list feature)
    (xy_bounds : nat * nat) (osm_tile_img : option bgr_image)
    (height_field seg_map contour : raster) (r c : nat) (b : Z) :
  get_osm_images int_float_half cv2_resize highways footprints xy_bounds
    osm_tile_img = Ok (height_field, seg_map, contour) →
  get2 contour r c = Some b →
  (b = 0 ∨ b = 1)
  ∧ (b = 1 → ∃ fp, fp ∈ footprints ∧ (r, c) ∈ outline fp
                   ∧ is_Some (tags fp !! "building")
                   ∧ _get_footprint_color int_float_half "seg_map" (tags fp)
                     = Ok (Some 2)).
Proof.
  unfold get_osm_images. intros Hrun Hb.
  destruct (seg_map_before_footprints _ _ _ _) as [[[s0 cz] gl]|]; [|done].
  simpl in Hrun.
  destruct (plot_footprints "seg_map" _ _ _) as [s1|]; [|done].
  simpl in Hrun.
  destruct (plot_footprint_outlines "footprint_contour" _ _ _) as [ct|] eqn:H2;
    [|done].
  simpl in Hrun.
  destruct (compose_height_field _ _ _ _ _ _) as [hf|]; [|done].
  simpl in Hrun. injection Hrun as <- <- <-.
  rewrite plot_footprint_outlines_stroked in H2.
  destruct (plot_footprints_value _ _ _ _ _ _ _ _ H2 Hb)
    as [He|(fp' & Hin & Hcov & Hcol)].
  - rewrite (get2_get_empty_map _ _ _ _ _ He). split; [by left|done].
  - apply list_elem_of_fmap in Hin as (fp & -> & Hin). simpl in Hcov, Hcol.
    destruct (seg_and_contour_colors int_float_half (tags fp))
      as (v & b' & Hv & Hb' & _ & Hbin & Hbv).
    rewrite Hb' in Hcol. injection Hcol as ->.
    split; [exact Hbin|]. intros ->. exists fp.
    split; [exact Hin|]. split; [exact Hcov|]. split.
    + unfold _get_footprint_color in Hb'.
      rewrite !decide_False in Hb' by done. rewrite decide_True in Hb' by done.
      rewrite tag_equals_any in Hb'. case_bool_decide; [done|discriminate].
    + by rewrite Hv, (Hbv eq_refl).
Qed.
End LayerValues.

Lemma rasters_share_the_bounding_box_witness :
  let highways := [Feature ∅ [(0, 0)%nat] [(0, 0)%nat]] in
  let building : tagmap := {[ "building" := "yes"; "height" := "12" ]} in
  let footprints := [Feature building [(1, 1)%nat] [(1, 1)%nat]] in
  get_osm_images (λ _, Some 12) (λ m _, m) highways footprints (2, 3)%nat None
  = Ok ([[4; 4; 4]; [4; 12; 4]], [[1; 6; 6]; [6; 2; 6]], [[0; 0; 0]; [0; 1; 0]])
  ∧ row_lengths [[4; 4; 4]; [4; 12; 4]] = [3; 3]%nat.
Proof.
  intros highways building footprints.
  assert (get_osm_images (λ _, Some 12) (λ m _, m) highways footprints
            (2, 3)%nat None
          = Ok ([[4; 4; 4]; [4; 12; 4]], [[1; 6; 6]; [6; 2; 6]],
                [[0; 0; 0]; [0; 1; 0]])) as Hrun by (vm_compute; reflexivity).
  split; [exact Hrun|].
  exact (proj1 (rasters_share_the_bounding_box _ _ _ _ _ _ _ _ _ Hrun)).
Defined.

Lemma footprint_without_height_aborts_the_tile_witness :
  let bare : tagmap := {[ "building" := "yes" ]} in
  _get_footprint_color (λ _, None) "height_field" bare = Raise AssertionError
  ∧ get_osm_images (λ _, None) (λ m _, m) [] ([] ++ Feature bare [(0, 0)%nat] [(0, 0)%nat] :: [])
      (1, 1)%nat None = Raise AssertionError.
Proof.
  intros bare.
  assert (_get_footprint_color (λ _, None) "height_field" bare
          = Raise AssertionError) as Hbare by (vm_compute; reflexivity).
  split; [exact Hbare|].
  apply (footprint_without_height_aborts_the_tile (λ _, None) (λ m _, m) []
           [] [] (Feature bare [(0, 0)%nat] [(0, 0)%nat]) (1, 1)%nat).
  - intros f Hf. by apply elem_of_nil in Hf.
  - exact Hbare.
Defined.

Lemma seg_map_classes_witness :
  let highways := [Feature ∅ [(0, 0)%nat] [(0, 0)%nat]] in
  let building : tagmap := {[ "building" := "yes"; "height" := "12" ]} in
  let footprints := [Feature building [(1, 1)%nat] [(1, 1)%nat]] in
  get_osm_images (λ _, Some 12) (λ m _, m) highways footprints (2, 2)%nat None
  = Ok ([[4; 4]; [4; 12]], [[1; 6]; [6; 2]], [[0; 0]; [0; 1]])
  ∧ get2 [[1; 6]; [6; 2]] 0 1 = Some 6
  ∧ 1 ≤ 6 ≤ 6.
Proof.
  intros highways building footprints.
  assert (get_osm_images (λ _, Some 12) (λ m _, m) highways footprints
            (2, 2)%nat None
          = Ok ([[4; 4]; [4; 12]], [[1; 6]; [6; 2]], [[0; 0]; [0; 1]])) as Hrun
    by (vm_compute; reflexivity).
  split; [exact Hrun|]. split; [reflexivity|].
  exact (proj1 (seg_map_classes _ _ _ _ _ _ _ _ _ 0%nat 1%nat 6 Hrun eq_refl)).
Defined.

Lemma contour_pixels_lie_on_building_outlines_witness :
  let highways := [Feature ∅ [(0, 0)%nat] [(0, 0)%nat]] in
  let building : tagmap := {[ "building" := "yes"; "height" := "12" ]} in
  let footprints :=
    [Feature building [(1, 1)%nat] [(0, 1); (1, 0); (1, 1)]%nat] in
  get_osm_images (λ _, Some 12) (λ m _, m) highways footprints (2, 2)%nat None
  = Ok ([[4; 4]; [4; 12]], [[1; 6]; [6; 2]], [[0; 1]; [1; 1]])
  ∧ get2 [[0; 1]; [1; 1]] 0 1 = Some 1
  ∧ ∃ fp, fp ∈ footprints ∧ (0, 1)%nat ∈ outline fp
          ∧ is_Some (tags fp !! "building")
          ∧ _get_footprint_color (λ _, Some 12) "seg_map" (tags fp)
            = Ok (Some 2).
Proof.
  intros highways building footprints.
  assert (get_osm_images (λ _, Some 12) (λ m _, m) highways footprints
            (2, 2)%nat None
          = Ok ([[4; 4]; [4; 12]], [[1; 6]; [6; 2]], [[0; 1]; [1; 1]])) as Hrun
    by (vm_compute; reflexivity).
  split; [exact Hrun|]. split; [reflexivity|].
  exact (proj2 (contour_pixels_lie_on_building_outlines _ _ _ _ _ _ _ _ _
                  0%nat 1%nat 1 Hrun eq_refl) eq_refl).
Defined.

(** ** Layer compositor: where the coast and the green land overlap *)

Section Overlap.
Variable int_float_half : string → option Z.
Variable cv2_resize : raster → nat * nat → raster.

Lemma seg_map_before_footprints_coast highways xy_bounds tile_img
    (s0 : raster) cz gl r c :
  seg_map_before_footprints cv2_resize highways xy_bounds (Some tile_img)
  = Ok (s0, cz, gl) →
  mask_on cz r c = true → get2 s0 r c = Some 5.
Proof.
  unfold seg_map_before_footprints. intros Hrun.
  destruct (plot_highways "seg_map" _ _ _) as [p1|]; [|done]. simpl in Hrun.
  destruct (get_green_lands _ _ _) as [g|]; [|done]. simpl in Hrun.
  destruct (assign_where p1 g 3) as [p2|]; [|done]. simpl in Hrun.
  destruct (assign_where p2 _ 5) as [p3|] eqn:H3; [|done]. simpl in Hrun.
  injection Hrun as <- <- <-.
  intros (k & Hk & Hne)%mask_on_Some.
  assert (row_lengths p2 = row_lengths (get_coast_zones cv2_resize tile_img
                                          (shape p2))) as Hlen.
  { unfold assign_where in H3. by destruct (decide _). }
  destruct (row_lengths_get2 _ p2 r c (eq_sym Hlen)) as [x Hx]; [eauto|].
  destruct (get2_assign_where _ _ _ _ _ _ _ H3 Hx) as (k' & Hk' & ->).
  rewrite Hk in Hk'. injection Hk' as <-. by rewrite decide_True.
Qed.

(** X13: on a pixel where the coast mask and the green-land mask are both
    set and that no footprint covers, the two layers disagree: the
    segmentation map says coast (5), the height field says green land (8),
    because the two masks are applied in opposite orders. *)
Theorem coast_in_seg_map_green_in_height_field (highways footprints : list feature)
    (xy_bounds : nat * nat) (tile_img : bgr_image)
    (s0 : raster) (coast_zones green_lands : option raster)
    (height_field seg_map contour : raster) (r c : nat) :
  seg_map_before_footprints cv2_resize highways xy_bounds (Some tile_img)
  = Ok (s0, coast_zones, green_lands) →
  get_osm_images int_float_half cv2_resize highways footprints xy_bounds
    (Some tile_img) = Ok (height_field, seg_map, contour) →
  mask_on coast_zones r c = true →
  mask_on green_lands r c = true →
  (∀ fp, fp ∈ footprints → (r, c) ∉ cover fp) →
  get2 seg_map r c = Some 5 ∧ get2 height_field r c = Some 8.
Proof.
  intros H0 Hrun Hcoast Hgreen Hfree.
  unfold get_osm_images, compose_height_field in Hrun. rewrite H0 in Hrun.
  simpl in Hrun.
  destruct (plot_footprints "seg_map" _ _ _) as [s1|] eqn:H1; [|done].
  simpl in Hrun.
  destruct (plot_footprint_outlines "footprint_contour" _ _ _) as [ct|];
    [|done].
  simpl in Hrun.
  destruct (height_field_before_footprints _ _ _ _) as [h0|] eqn:H2; [|done].
  simpl in Hrun.
  destruct (plot_footprints "height_field" _ _ _) as [h1|] eqn:H3; [|done].
  simpl in Hrun. injection Hrun as <- <- <-.
  pose proof (seg_map_before_footprints_coast _ _ _ _ _ _ _ _ H0 Hcoast) as Hs0.
  split.
  - rewrite get2_replace_eq.
    rewrite (plot_footprints_untouched _ _ _ _ _ _ _ _ H1 Hs0); [done|].
    intros fp Hfp Hin. by destruct (Hfree fp Hfp).
  - destruct (row_lengths_get2 s0 h0 r c) as [x Hx]; [|eauto|].
    { rewrite (seg_map_before_footprints_row_lengths _ _ _ _ _ _ _ H0).
      by rewrite (height_field_before_footprints_row_lengths _ _ _ _ _ H2). }
    pose proof (height_field_before_footprints_value _ _ _ _ _ _ _ _ H2 Hx) as Hv.
    rewrite Hgreen in Hv. subst x.
    rewrite (plot_footprints_untouched _ _ _ _ _ _ _ _ H3 Hx); [done|].
    intros fp Hfp Hin. by destruct (Hfree fp Hfp).
Qed.
End Overlap.

Lemma coast_in_seg_map_green_in_height_field_witness :
  let resize : raster → nat * nat → raster := λ m _, m in
  let full (v : Z) : raster := replicate 10 (replicate 10 v) in
  seg_map_before_footprints resize [] (10, 10)%nat (Some shore_tile)
  = Ok (full 5, Some (full 255), Some (full 255))
  ∧ get_osm_images (λ _, None) resize [] [] (10, 10)%nat (Some shore_tile)
    = Ok (full 8, full 5, full 0)
  ∧ mask_on (Some (full 255)) 4 4 = true
  ∧ get2 (full 5) 4 4 = Some 5 ∧ get2 (full 8) 4 4 = Some 8.
Proof.
  intros resize full.
  assert (seg_map_before_footprints resize [] (10, 10)%nat (Some shore_tile)
          = Ok (full 5, Some (full 255), Some (full 255))) as H0
    by (vm_compute; reflexivity).
  assert (get_osm_images (λ _, None) resize [] [] (10, 10)%nat (Some shore_tile)
          = Ok (full 8, full 5, full 0)) as Hrun by (vm_compute; reflexivity).
  assert (mask_on (Some (full 255)) 4 4 = true) as Hm by (vm_compute; reflexivity).
  split; [exact H0|]. split; [exact Hrun|]. split; [exact Hm|].
  apply (coast_in_seg_map_green_in_height_field (λ _, None) resize [] []
           (10, 10)%nat shore_tile (full 5) (Some (full 255)) (Some (full 255))
           (full 8) (full 5) (full 0) 4 4 H0 Hrun Hm Hm).
  intros fp Hfp%elem_of_nil. destruct Hfp.
Defined.

(** ** Patch extraction: inside the raster, and on two rasters *)

Lemma lookup_py_slice {A} (l : list A) (s e : Z) (i : nat) :
  0 ≤ s → e ≤ Z.of_nat (length l) → Z.of_nat i < e - s →
  py_slice l s e !! i = l !! (Z.to_nat s + i)%nat.
Proof.
  intros Hs He Hi. unfold py_slice, slice_bound.
  rewrite !decide_False by lia.
  rewrite lookup_take_lt by lia. rewrite lookup_drop. f_equal. lia.
Qed.

Lemma row_lengths_py_slice {A} (l : list (list A)) (s e : Z) :
  row_lengths (py_slice l s e) = py_slice (row_lengths l) s e.
Proof.
  unfold row_lengths, py_slice. by rewrite fmap_take, fmap_drop, length_fmap.
Qed.

Lemma row_lengths_slice_rows {A B} (f : A → B) (l : list (list A)) (s e : Z) :
  row_lengths (map (λ row, f <$> py_slice row s e) l)
  = (λ n, length (py_slice (replicate n ()) s e)) <$> row_lengths l.
Proof.
  unfold row_lengths. rewrite <- !list_fmap_compose. apply list_fmap_ext.
  intros _ row _. simpl. rewrite length_fmap. unfold py_slice.
  by rewrite !length_take, !length_drop, !length_replicate.
Qed.

(** The cast leaves an [int32] as it is. *)
Lemma np_int32_id (v : Z) : - 2 ^ 31 ≤ v < 2 ^ 31 → np_int32 v = v.
Proof.
  intros Hv. unfold np_int32.
  rewrite Z.mod_small by lia. lia.
Qed.

(** The cast wraps what does not fit. *)
Lemma np_int32_wraps :
  np_int32 (2 ^ 31) = - 2 ^ 31 ∧ np_int32 (2 ^ 32 + 5) = 5
  ∧ np_int32 (- 2 ^ 31 - 1) = 2 ^ 31 - 1.
Proof. vm_compute. done. Qed.

Lemma uint8_int32_raster (img : raster) : uint8_raster img → int32_raster img.
Proof.
  intros Hu r c v (row & Hrow & Hv)%get2_Some.
  eapply Forall_lookup_1 in Hu; [|exact Hrow].
  eapply Forall_lookup_1 in Hu; [|exact Hv]. simpl in Hu. lia.
Qed.

Lemma patch_inside_lookup (img : raster) (cx cy patch_size : Z) (i j : nat) :
  Forall (λ row, length row = (shape img).2) img →
  0 ≤ patch_size →
  0 ≤ cx - patch_size / 2 → cx + patch_size / 2 < Z.of_nat (shape img).2 →
  0 ≤ cy - patch_size / 2 → cy + patch_size / 2 < Z.of_nat (shape img).1 →
  Z.of_nat i < 2 * (patch_size / 2) → Z.of_nat j < 2 * (patch_size / 2) →
  get2 (_get_img_patch img cx cy patch_size).1 i j
  = np_int32 <$> get2 img (Z.to_nat (cy - patch_size / 2) + i)
                          (Z.to_nat (cx - patch_size / 2) + j).
Proof.
  intros Hrect Hps Hxs Hxe Hys Hye Hi Hj. unfold _get_img_patch.
  assert (0 ≤ patch_size / 2) as Hhalf by (apply Z.div_pos; lia).
  rewrite (decide_False (P:=cx - patch_size / 2 < 0 ∨ _)) by lia.
  rewrite (decide_False (P:=cy - patch_size / 2 < 0 ∨ _)) by lia.
  cbn [fst snd app].
  assert (Z.of_nat (length img) = Z.of_nat (shape img).1) as Hlen by done.
  unfold get2. rewrite list_lookup_fmap.
  rewrite lookup_py_slice by lia.
  destruct (img !! (Z.to_nat (cy - patch_size / 2) + i)%nat) as [row|] eqn:Hrow;
    [|done]. simpl.
  eapply Forall_lookup_1 in Hrect; [|exact Hrow].
  rewrite list_lookup_fmap.
  rewrite lookup_py_slice; [done|lia|rewrite Hrect; lia|lia].
Qed.

(** On a raster of [int32] values the cast changes nothing. *)
Lemma fmap_np_int32_get2 (img : raster) (r c : nat) :
  int32_raster img → np_int32 <$> get2 img r c = get2 img r c.
Proof.
  intros Hint. destruct (get2 img r c) as [v|] eqn:Hv; [|done]. simpl.
  by rewrite np_int32_id by by eapply Hint.
Qed.

(** X14: a request that lies inside the raster logs nothing and returns
    the square of side [2 * (patch_size // 2)] that starts at
    [(cy - patch_size // 2, cx - patch_size // 2)], each pixel cast to
    [int32]; for an odd [patch_size] that is one pixel less than asked.
    On a raster whose values fit [int32], as the [uint8] and [uint16]
    layers do, the patch holds the pixels of the raster unchanged. *)
Theorem patch_inside_the_raster (img : raster) (cx cy patch_size : Z) :
  Forall (λ row, length row = (shape img).2) img →
  0 ≤ patch_size →
  0 ≤ cx - patch_size / 2 → cx + patch_size / 2 < Z.of_nat (shape img).2 →
  0 ≤ cy - patch_size / 2 → cy + patch_size / 2 < Z.of_nat (shape img).1 →
  (_get_img_patch img cx cy patch_size).2 = []
  ∧ row_lengths (_get_img_patch img cx cy patch_size).1
    = replicate (Z.to_nat (2 * (patch_size / 2))) (Z.to_nat (2 * (patch_size / 2)))
  ∧ (∀ i j : nat,
      Z.of_nat i < 2 * (patch_size / 2) → Z.of_nat j < 2 * (patch_size / 2) →
      get2 (_get_img_patch img cx cy patch_size).1 i j
      = np_int32 <$> get2 img (Z.to_nat (cy - patch_size / 2) + i)
                              (Z.to_nat (cx - patch_size / 2) + j))
  ∧ (int32_raster img →
     ∀ i j : nat,
      Z.of_nat i < 2 * (patch_size / 2) → Z.of_nat j < 2 * (patch_size / 2) →
      get2 (_get_img_patch img cx cy patch_size).1 i j
      = get2 img (Z.to_nat (cy - patch_size / 2) + i)
                 (Z.to_nat (cx - patch_size / 2) + j)).
Proof.
  intros Hrect Hps Hxs Hxe Hys Hye.
  assert (∀ i j : nat,
      Z.of_nat i < 2 * (patch_size / 2) → Z.of_nat j < 2 * (patch_size / 2) →
      get2 (_get_img_patch img cx cy patch_size).1 i j
      = np_int32 <$> get2 img (Z.to_nat (cy - patch_size / 2) + i)
                              (Z.to_nat (cx - patch_size / 2) + j)) as Hget.
  { intros i j Hi Hj. by apply patch_inside_lookup. }
  revert Hget. unfold _get_img_patch.
  assert (0 ≤ patch_size / 2) as Hhalf by (apply Z.div_pos; lia).
  rewrite (decide_False (P:=cx - patch_size / 2 < 0 ∨ _)) by lia.
  rewrite (decide_False (P:=cy - patch_size / 2 < 0 ∨ _)) by lia.
  cbn [fst snd app]. intros Hget. split; [done|].
  assert (Z.of_nat (length img) = Z.of_nat (shape img).1) as Hlen by done.
  split; [|split].
  - rewrite row_lengths_slice_rows, row_lengths_py_slice.
    apply list_eq. intros i. rewrite list_lookup_fmap.
    destruct (decide (Z.of_nat i < 2 * (patch_size / 2))) as [Hi|Hi].
    + rewrite lookup_py_slice; [|lia| |lia].
      2:{ unfold row_lengths. rewrite length_fmap. lia. }
      rewrite lookup_replicate_2 by lia.
      destruct (lookup_lt_is_Some_2 img (Z.to_nat (cy - patch_size / 2) + i))
        as [row Hrow]; [lia|].
      unfold row_lengths. rewrite list_lookup_fmap, Hrow. simpl. f_equal.
      eapply Forall_lookup_1 in Hrect; [|exact Hrow].
      rewrite Hrect. apply Nat2Z.inj.
      rewrite length_py_slice, length_replicate. unfold slice_bound.
      rewrite !decide_False by lia. lia.
    + rewrite (lookup_ge_None_2 (replicate _ _)) by (rewrite length_replicate; lia).
      rewrite (lookup_ge_None_2 (py_slice _ _ _)); [done|].
      apply Nat2Z.inj_le. rewrite length_py_slice. unfold row_lengths.
      rewrite length_fmap. unfold slice_bound. rewrite !decide_False by lia. lia.
  - exact Hget.
  - intros Hint i j Hi Hj. rewrite (Hget i j Hi Hj).
    by apply fmap_np_int32_get2.
Qed.

Lemma patch_inside_the_raster_witness :
  let img := blob_in 10 10 2 2 3 3 in
  Forall (λ row, length row = (shape img).2) img
  ∧ (_get_img_patch img 5 5 7).2 = []
  ∧ row_lengths (_get_img_patch img 5 5 7).1 = replicate 6 6%nat
  ∧ get2 (_get_img_patch img 5 5 7).1 1 2 = get2 img 3 4.
Proof.
  intros img.
  assert (Forall (λ row, length row = (shape img).2) img) as Hrect.
  { apply Forall_forall. intros row Hrow. unfold img, blob_in in Hrow.
    apply elem_of_lookup_imap in Hrow as (r & [] & -> & _).
    rewrite length_imap, length_replicate. reflexivity. }
  split; [exact Hrect|].
  destruct (patch_inside_the_raster img 5 5 7 Hrect)
    as (Hlog & Hshape & _ & Hsame);
    [vm_compute; discriminate | vm_compute; discriminate | vm_compute; reflexivity
    | vm_compute; discriminate | vm_compute; reflexivity |].
  split; [exact Hlog|]. split; [exact Hshape|].
  apply (Hsame (uint8_int32_raster _ (uint8_blob_in _ _ _ _ _ _)) 1%nat 2%nat);
    vm_compute; reflexivity.
Defined.

(** X15: the same request on two rasters of one shape (the segmentation
    map and the height field) logs the same records and returns patches of
    the same shape, so the two patches stay aligned pixel for pixel. *)
Theorem patches_of_two_layers_align (seg_map height_field : raster)
    (cx cy patch_size : Z) :
  row_lengths seg_map = row_lengths height_field →
  row_lengths (_get_img_patch seg_map cx cy patch_size).1
  = row_lengths (_get_img_patch height_field cx cy patch_size).1
  ∧ (_get_img_patch seg_map cx cy patch_size).2
    = (_get_img_patch height_field cx cy patch_size).2.
Proof.
  intros Hlen. unfold _get_img_patch.
  rewrite (shape_row_lengths _ _ Hlen).
  destruct (decide (cx - patch_size / 2 < 0 ∨ _)),
    (decide (cy - patch_size / 2 < 0 ∨ _)); cbn [fst snd];
    (split; [|done]);
    by rewrite !row_lengths_slice_rows, !row_lengths_py_slice, Hlen.
Qed.

Lemma patches_of_two_layers_align_witness :
  let seg_map := blob_in 10 10 2 2 3 3 in
  let height_field := blob_in 10 10 0 0 10 10 in
  row_lengths seg_map = row_lengths height_field
  ∧ row_lengths (_get_img_patch seg_map 1 5 6).1
    = row_lengths (_get_img_patch height_field 1 5 6).1.
Proof.
  intros seg_map height_field.
  assert (row_lengths seg_map = row_lengths height_field) as Hlen
    by (vm_compute; reflexivity).
  split; [exact Hlen|].
  exact (proj1 (patches_of_two_layers_align seg_map height_field 1 5 6 Hlen)).
Defined.

(** ** Camera track aligner: the target cancels *)

Section AlignerTarget.
Variable lnglat2xy : Q → Q → Q → Z → bool → Q * Q.
Variable resolution : Q.
Variable zoom_level : Z.
Local Open Scope Q_scope.

Local Abbreviation frame_xy gcp :=
  (lnglat2xy (longitude gcp) (latitude gcp) resolution zoom_level true).
Local Abbreviation aligned := (aligned_positions lnglat2xy resolution zoom_level).

Lemma np_mean_shift {A} (f : A → Q) (k : Q) (l : list A) :
  l ≠ [] → np_mean (map (λ a, f a - k) l) == np_mean (map f l) - k.
Proof.
  intros Hl. unfold np_mean. rewrite Qsum_shift, !length_map.
  pose proof (inject_length_nonzero l Hl). field. done.
Qed.

(** X16: the aligned camera positions do not depend on where the camera
    target projects to: each frame ends at its own pixel position minus
    the mean pixel position of the track, plus the voxel centre, and its
    z is its altitude.  Arithmetic is exact. *)
Theorem aligned_positions_ignore_the_target (center : coordinate)
    (poses : list coordinate) (patch_size : Z) (i : nat) (gcp : coordinate) :
  poses !! i = Some gcp →
  ∃ q, aligned center poses patch_size !! i = Some q
       ∧ pos_x q == (frame_xy gcp).1
                    - np_mean (map (λ g, (frame_xy g).1) poses)
                    + (vol_center patch_size).1.1
       ∧ pos_y q == (frame_xy gcp).2
                    - np_mean (map (λ g, (frame_xy g).2) poses)
                    + (vol_center patch_size).1.2
       ∧ pos_z q = altitude gcp.
Proof.
  intros Hi. assert (poses ≠ []) as Hne by (intros ->; done).
  rewrite aligned_positions_eq, relative_positions_eq.
  rewrite !list_lookup_fmap, Hi. simpl. eexists. split; [reflexivity|].
  unfold track_offset. rewrite relative_positions_eq, !map_map. cbn [fst snd pos_x pos_y pos_z].
  rewrite (np_mean_shift (λ g, (frame_xy g).1) _ poses Hne).
  rewrite (np_mean_shift (λ g, (frame_xy g).2) _ poses Hne).
  repeat split; ring.
Qed.
End AlignerTarget.

Lemma aligned_positions_ignore_the_target_witness :
  let proj : Q → Q → Q → Z → bool → Q * Q := λ lng lat _ _ _, (lng, lat) in
  let poses := [Coordinate 3 1 7; Coordinate 1 1 9] in
  poses !! 0%nat = Some (Coordinate 3 1 7)
  ∧ ∃ q, aligned_positions proj 1 18 (Coordinate 40 50 1) poses 5 !! 0%nat = Some q
         ∧ pos_z q = 7%Q.
Proof.
  intros proj poses. split; [reflexivity|].
  destruct (aligned_positions_ignore_the_target proj 1 18 (Coordinate 40 50 1)
              poses 5 0 (Coordinate 3 1 7) eq_refl) as (q & Hq & _ & _ & Hz).
  exists q. split; [exact Hq | exact Hz].
Defined.

(** ** Mask cleaner: components are kept or removed as a whole *)

Lemma neighbours4_sym p q : q ∈ neighbours4 p → p ∈ neighbours4 q.
Proof.
  destruct p as [r c], q as [r' c']. unfold neighbours4. intros Hq.
  apply elem_of_app in Hq as [Hq|Hq];
    [apply elem_of_cons in Hq as [Hq|Hq];
       [|apply list_elem_of_singleton in Hq]
    |apply elem_of_app in Hq as [Hq|Hq]].
  - injection Hq as -> ->. set_solver.
  - injection Hq as -> ->. set_solver.
  - destruct r as [|r]; [by apply elem_of_nil in Hq|].
    apply list_elem_of_singleton in Hq. injection Hq as -> ->. set_solver.
  - destruct c as [|c]; [by apply elem_of_nil in Hq|].
    apply list_elem_of_singleton in Hq. injection Hq as -> ->. set_solver.
Qed.

Section FloodClosed.
Variable m : raster.

Lemma linked_nil lab l : linked m lab [] l → closed m lab.
Proof.
  intros Hl p q k H1 H2 H3 H4.
  destruct (Hl p q k H1 H2 H3 H4) as [?|[_ Hin]]; [done|].
  by apply elem_of_nil in Hin.
Qed.

Lemma closed_linked lab work l : closed m lab → linked m lab work l.
Proof. intros Hc p q k H1 H2 H3 H4. left. by eapply Hc. Qed.

Lemma linked_push lab p0 rest l :
  l ≠ O → unlabelled lab p0 = true →
  linked m lab (p0 :: rest) l →
  linked m (set2 lab p0.1 p0.2 l) (neighbours4 p0 ++ rest) l.
Proof.
  intros Hl Hun Hlink p q k Hk Hk0 Hq Hfg.
  pose proof (unlabelled_get2 _ _ Hun) as H0.
  rewrite get2_set2 in Hk. destruct (decide (p0.1 = p.1 ∧ p0.2 = p.2)) as [[Hr Hc]|Hne].
  - rewrite <- Hr, <- Hc, H0 in Hk. injection Hk as <-.
    right. split; [done|]. apply elem_of_app. left.
    destruct p0, p; simpl in *; by subst.
  - destruct (Hlink p q k Hk Hk0 Hq Hfg) as [Hqk|[-> Hin]].
    + left. rewrite get2_set2. destruct (decide _) as [[Hr Hc]|]; [|done].
      rewrite <- Hr, <- Hc, H0 in Hqk. congruence.
    + apply elem_of_cons in Hin as [->|Hin].
      * left. rewrite get2_set2, decide_True by done. by rewrite H0.
      * right. split; [done|]. apply elem_of_app. by right.
Qed.

Lemma linked_pop lab bound p0 rest l :
  lab_inv m lab bound →
  is_fg m p0 && unlabelled lab p0 = false →
  linked m lab (p0 :: rest) l → linked m lab rest l.
Proof.
  intros [Hlen Hsound] Hc Hlink p q k Hk Hk0 Hq Hfg.
  destruct (Hlink p q k Hk Hk0 Hq Hfg) as [?|[-> Hin]]; [by left|].
  apply elem_of_cons in Hin as [->|Hin]; [|by right].
  left. rewrite Hfg in Hc. simpl in Hc.
  assert (is_Some (get2 lab p0.1 p0.2)) as [k' Hk'].
  { apply (row_lengths_get2 m lab); [done|].
    unfold is_fg in Hfg. destruct (get2 m p0.1 p0.2); [eauto|done]. }
  assert (k' ≠ O) as Hk'0.
  { intros ->. unfold unlabelled in Hc. by rewrite Hk' in Hc. }
  assert (is_fg m p = true) as Hp.
  { destruct p as [r c]. by destruct (Hsound r c l Hk Hk0). }
  destruct (Hlink p0 p k' Hk' Hk'0 (neighbours4_sym _ _ Hq) Hp) as [Hpk|[-> _]].
  - rewrite Hk in Hpk. by injection Hpk as <-.
  - done.
Qed.

(** With enough fuel the flood fill stops on an empty work list, and the
    labelling is closed again. *)
Lemma flood_closed fuel lab work l bound :
  l ≠ O → (l < bound)%nat → lab_inv m lab bound →
  (4 * pending m lab + length work ≤ fuel)%nat →
  linked m lab work l → closed m (flood fuel m lab work l).
Proof.
  intros Hl Hlt. revert lab work.
  induction fuel as [|fuel IH]; intros lab work Hinv Hfuel Hlink.
  - destruct work; [|simpl in Hfuel; lia]. by eapply linked_nil.
  - simpl. destruct work as [|p0 rest]; [by eapply linked_nil|].
    destruct (is_fg m p0 && unlabelled lab p0) eqn:Hc.
    + apply andb_true_iff in Hc as [Hfg Hun]. apply IH.
      * by apply lab_inv_set2.
      * pose proof (pending_set2 m lab p0 l Hl Hfg Hun).
        pose proof (length_neighbours4 p0).
        rewrite length_app. simpl in Hfuel. lia.
      * by apply linked_push.
    + apply IH; [done|simpl in Hfuel; lia|]. by eapply linked_pop.
Qed.

Lemma scan_step_closed visited st p :
  scan_inv m visited st → closed m st.1 → closed m (scan_step m st p).1.
Proof.
  destruct st as [lab next]. intros (Hinv & Hnext & _) Hc. simpl in *.
  unfold scan_step. destruct (is_fg m p && unlabelled lab p); [|done].
  simpl. apply (flood_closed _ _ _ _ (S next)); [lia|lia| | |].
  - apply (lab_inv_mono _ _ next); [lia|done].
  - pose proof (pending_le m lab). unfold flood_fuel. simpl. lia.
  - by apply closed_linked.
Qed.

Lemma scan_closed ps visited st :
  scan_inv m visited st → closed m st.1 →
  closed m (foldl (scan_step m) st ps).1.
Proof.
  revert visited st. induction ps as [|p ps IH]; intros visited st Hst Hc;
    simpl; [done|].
  apply (IH (p :: visited)); [by apply scan_step_inv|].
  by eapply scan_step_closed.
Qed.

(** Two non-zero pixels that touch get the same label. *)
Lemma label_components_closed lab n :
  label_components m = (lab, n) → closed m lab.
Proof.
  unfold label_components. intros Hrun.
  pose proof (scan_closed (pixels m) [] (map (map (λ _, O)) m, 1%nat)) as H.
  rewrite Hrun in H. apply H.
  - split; [split|split; [done|]]; simpl.
    + unfold row_lengths. rewrite <- list_fmap_compose. apply list_fmap_ext.
      intros _ row _. simpl. apply length_map.
    + intros r c l. rewrite get2_map.
      destruct (get2 m r c); simpl; [|done]. by intros [= <-] ?.
    + by intros p ?%elem_of_nil.
  - intros p q k. simpl. rewrite get2_map.
    destruct (get2 m p.1 p.2); simpl; [|done]. by intros [= <-] ?.
Qed.
End FloodClosed.

(** X17: the threshold counts what is left after the erosion: when the
    eroded mask has at most 96 non-zero pixels, the cleaned mask is zero
    everywhere. *)
Theorem sparse_erosion_is_cleared (mask : raster) (r c : nat) (v : Z) :
  (n_foreground (cv2_erode5 mask) ≤ N_PIXELS_THRES)%nat →
  get2 (_remove_mask_outliers mask) r c = Some v → v = 0.
Proof.
  intros Hsmall. unfold _remove_mask_outliers, connectedComponentsWithStats.
  destruct (label_components (cv2_erode5 mask)) as [lab n] eqn:Hrun.
  intros (x & ig & Hx & Hig & ->)%get2_zip_with.
  rewrite get2_map in Hig.
  destruct (get2 lab r c) as [l|] eqn:Hl; [|done]. injection Hig as <-.
  destruct (decide (x = 0)) as [->|Hne]; [done|].
  destruct (label_components_spec _ lab n Hrun) as [[Hlen Hsound] Hall].
  destruct (Hall (r, c)) as (l' & Hl' & Hl0).
  { unfold is_fg. simpl. rewrite Hx. by apply bool_decide_eq_true. }
  simpl in Hl'. rewrite Hl in Hl'. injection Hl' as <-.
  destruct (Hsound r c l Hl Hl0) as [_ Hlt].
  rewrite bool_decide_eq_true_2; [simpl; lia|].
  eapply elem_of_where_le.
  - rewrite list_lookup_fmap, lookup_seq_lt by done. done.
  - simpl. etrans; [by eapply label_area_le|]. done.
Qed.

Lemma sparse_erosion_is_cleared_witness :
  let mask := blob_in 12 22 1 1 10 20 in
  (n_foreground (cv2_erode5 mask) ≤ N_PIXELS_THRES)%nat
  ∧ ∀ r c v, get2 (_remove_mask_outliers mask) r c = Some v → v = 0.
Proof.
  intros mask.
  assert (n_foreground (cv2_erode5 mask) ≤ N_PIXELS_THRES)%nat as Hsmall.
  { assert (n_foreground (cv2_erode5 mask) = 96%nat) as ->
      by (vm_compute; reflexivity).
    unfold N_PIXELS_THRES. lia. }
  split; [exact Hsmall|].
  intros r c v. exact (sparse_erosion_is_cleared mask r c v Hsmall).
Defined.

(** X18: the cleaner never cuts a component: of two pixels that touch and
    are both non-zero after the erosion, either both are cleared or both
    keep their eroded value. *)
Theorem neighbours_are_kept_or_cleared_together (mask : raster)
    (p q : nat * nat) (v w : Z) :
  q ∈ neighbours4 p →
  is_fg (cv2_erode5 mask) p = true →
  is_fg (cv2_erode5 mask) q = true →
  get2 (_remove_mask_outliers mask) p.1 p.2 = Some v →
  get2 (_remove_mask_outliers mask) q.1 q.2 = Some w →
  (v = 0 ∧ w = 0)
  ∨ (get2 (cv2_erode5 mask) p.1 p.2 = Some v
     ∧ get2 (cv2_erode5 mask) q.1 q.2 = Some w).
Proof.
  intros Hq Hp Hfq. unfold _remove_mask_outliers, connectedComponentsWithStats.
  destruct (label_components (cv2_erode5 mask)) as [lab n] eqn:Hrun.
  intros (x & igp & Hx & Higp & ->)%get2_zip_with
         (y & igq & Hy & Higq & ->)%get2_zip_with.
  rewrite get2_map in Higp, Higq.
  destruct (label_components_spec _ lab n Hrun) as [_ Hall].
  destruct (Hall p Hp) as (k & Hk & Hk0).
  pose proof (label_components_closed _ lab n Hrun p q k Hk Hk0 Hq Hfq) as Hqk.
  rewrite Hk in Higp. rewrite Hqk in Higq.
  injection Higp as <-. injection Higq as <-.
  destruct (bool_decide _); simpl.
  - left. lia.
  - right. by rewrite !Z.mul_1_r.
Qed.

Lemma neighbours_are_kept_or_cleared_together_witness :
  let mask := blob_in 13 23 1 1 11 20 in
  (3, 4)%nat ∈ neighbours4 (3, 3)%nat
  ∧ is_fg (cv2_erode5 mask) (3, 3)%nat = true
  ∧ is_fg (cv2_erode5 mask) (3, 4)%nat = true
  ∧ ((255 = 0 ∧ 255 = 0)
     ∨ (get2 (cv2_erode5 mask) 3 3 = Some 255
        ∧ get2 (cv2_erode5 mask) 3 4 = Some 255)).
Proof.
  intros mask.
  assert ((3, 4)%nat ∈ neighbours4 (3, 3)%nat) as Hq by (simpl; set_solver).
  assert (is_fg (cv2_erode5 mask) (3, 3)%nat = true) as Hp
    by (vm_compute; reflexivity).
  assert (is_fg (cv2_erode5 mask) (3, 4)%nat = true) as Hfq
    by (vm_compute; reflexivity).
  split; [exact Hq|]. split; [exact Hp|]. split; [exact Hfq|].
  apply (neighbours_are_kept_or_cleared_together mask (3, 3)%nat (3, 4)%nat
           255 255 Hq Hp Hfq); vm_compute; reflexivity.
Defined.

(** ** Mask cleaner: a mask that is on everywhere *)

Lemma raster_ext {A} (a b : list (list A)) :
  row_lengths a = row_lengths b →
  (∀ r c x, get2 a r c = Some x → get2 b r c = Some x) → a = b.
Proof.
  intros Hlen Hget. apply list_eq. intros r.
  assert (row_lengths a !! r = row_lengths b !! r) as Hr by by rewrite Hlen.
  unfold row_lengths in Hr. rewrite !list_lookup_fmap in Hr.
  destruct (a !! r) as [ra|] eqn:Ha, (b !! r) as [rb|] eqn:Hb; simpl in Hr;
    try done.
  injection Hr as Hr. f_equal. apply list_eq. intros c.
  destruct (ra !! c) as [x|] eqn:Hx.
  - specialize (Hget r c x). unfold get2 in Hget. rewrite Ha, Hb in Hget.
    simpl in Hget. symmetry. by apply Hget.
  - symmetry. apply lookup_ge_None. rewrite <- Hr. by apply lookup_ge_None.
Qed.

Lemma get2_replicate {A} h w (v x : A) r c :
  get2 (replicate h (replicate w v)) r c = Some x ↔ x = v ∧ (r < h)%nat ∧ (c < w)%nat.
Proof.
  rewrite get2_Some. split.
  - intros (row & [-> Hr]%lookup_replicate & [-> Hc]%lookup_replicate). done.
  - intros (-> & Hr & Hc). exists (replicate w v).
    split; by apply lookup_replicate_2.
Qed.

Lemma row_lengths_replicate {A} h w (v : A) :
  row_lengths (replicate h (replicate w v)) = replicate h w.
Proof. unfold row_lengths. by rewrite fmap_replicate, length_replicate. Qed.

Lemma fold_min_lower (m : raster) (ps : list (Z * Z)) (init lo : Z) :
  lo ≤ init →
  (∀ p x, p ∈ ps → getZ m p.1 p.2 = Some x → lo ≤ x) →
  lo ≤ foldr (erode_step m) init ps.
Proof.
  intros Hinit. induction ps as [|q ps IH]; intros Hps; simpl; [done|].
  unfold erode_step at 1. destruct (getZ m q.1 q.2) as [x|] eqn:Hx.
  - apply Z.min_glb; [eapply Hps; [left|done] | apply IH].
    intros; eapply Hps; [by right|done].
  - apply IH. intros; eapply Hps; [by right|done].
Qed.

Section FullMask.
Variables (h w : nat) (v : Z).
Hypothesis Hv : 1 ≤ v ≤ 255.
Local Abbreviation full := (replicate h (replicate w v)).

Lemma erode_full : cv2_erode5 full = full.
Proof.
  apply raster_ext; [apply row_lengths_cv2_erode5|].
  intros r c x. rewrite get2_cv2_erode5.
  destruct (get2 full r c) as [y|] eqn:Hy; [|done]. simpl. intros [= <-].
  f_equal. apply get2_replicate in Hy as (-> & Hr & Hc).
  apply Z.le_antisymm.
  - apply fold_min_lower; [lia|]. intros p x _ Hx. unfold getZ in Hx.
    destruct (decide _); [|done]. apply get2_replicate in Hx as [-> _]. lia.
  - apply (erode_px_le full r c _ v (centre_in_window5 r c)).
    simpl. rewrite getZ_of_nat. by apply get2_replicate.
Qed.

Lemma is_fg_full p : is_fg full p = true ↔ (p.1 < h)%nat ∧ (p.2 < w)%nat.
Proof.
  unfold is_fg. destruct (get2 full p.1 p.2) as [x|] eqn:Hx.
  - apply get2_replicate in Hx as (-> & Hr & Hc). unfold nonzero.
    rewrite bool_decide_eq_true. split; [done|lia].
  - split; [done|]. intros [Hr Hc].
    assert (get2 full p.1 p.2 = Some v) as Hs by by apply get2_replicate.
    congruence.
Qed.

(** The whole mask is one component. *)
Lemma label_components_full lab n :
  (0 < h)%nat → (0 < w)%nat →
  label_components full = (lab, n) →
  ∃ k, k ≠ O ∧ (k < n)%nat ∧ lab = replicate h (replicate w k).
Proof.
  intros Hh Hw Hrun.
  destruct (label_components_spec _ lab n Hrun) as [[Hlen Hsound] Hall].
  pose proof (label_components_closed _ lab n Hrun) as Hclosed.
  destruct (Hall (0, 0)%nat) as (k & Hk & Hk0); [by apply is_fg_full|].
  simpl in Hk. exists k. split; [done|]. split.
  { by destruct (Hsound _ _ _ Hk Hk0). }
  assert (∀ c, (c < w)%nat → get2 lab 0 c = Some k) as Hrow0.
  { induction c as [|c IH]; intros Hc; [done|].
    apply (Hclosed (0, c)%nat (0, S c)%nat k); [apply IH; simpl; lia|done| |].
    - simpl. apply elem_of_cons. by left + (right; apply elem_of_cons; by left).
    - apply is_fg_full. simpl. lia. }
  assert (∀ r c, (r < h)%nat → (c < w)%nat → get2 lab r c = Some k) as Hall_k.
  { induction r as [|r IH]; intros c Hr Hc; [by apply Hrow0|].
    apply (Hclosed (r, c) (S r, c) k); [apply IH; simpl; lia|done| |].
    - simpl. apply elem_of_cons. by left + (right; apply elem_of_cons; by left).
    - apply is_fg_full. simpl. lia. }
  apply raster_ext.
  - by rewrite Hlen, !row_lengths_replicate.
  - intros r c x Hx.
    destruct (row_lengths_get2 lab full r c Hlen) as [y Hy]; [eauto|].
    apply get2_replicate in Hy as (_ & Hr & Hc).
    rewrite (Hall_k r c Hr Hc) in Hx. injection Hx as <-.
    by apply get2_replicate.
Qed.

Lemma count2_replicate (k : nat) :
  count2 (Nat.eqb k) (replicate h (replicate w k)) = (h * w)%nat.
Proof.
  unfold count2. rewrite fmap_replicate.
  assert (filter (λ x, (k =? x)%nat = true) (replicate w k) = replicate w k) as ->.
  { induction w as [|w' IH]; [done|]. simpl. rewrite filter_cons.
    rewrite decide_True by apply Nat.eqb_refl. by rewrite IH. }
  by rewrite length_replicate, sum_list_replicate.
Qed.
End FullMask.

Lemma elem_of_where_le_inv (areas : list nat) (t l : nat) :
  l ∈ where_le areas t → ∃ a, areas !! l = Some a ∧ (a ≤ t)%nat.
Proof.
  unfold where_le. intros ([i a] & Hin & Hia)%list_elem_of_bind.
  apply elem_of_lookup_imap in Hia as (i' & a' & [= -> ->] & Ha).
  simpl in Hin. destruct (decide (a' ≤ t)%nat); [|by apply elem_of_nil in Hin].
  apply list_elem_of_singleton in Hin as ->. eauto.
Qed.

(** X19: a mask that holds one non-zero value on every pixel and has more
    than 96 pixels is returned unchanged. *)
Theorem full_mask_is_unchanged (h w : nat) (v : Z) :
  1 ≤ v ≤ 255 →
  (N_PIXELS_THRES < h * w)%nat →
  _remove_mask_outliers (replicate h (replicate w v)) = replicate h (replicate w v).
Proof.
  intros Hv Hbig. unfold _remove_mask_outliers, connectedComponentsWithStats.
  rewrite (erode_full h w v Hv).
  destruct (label_components (replicate h (replicate w v))) as [lab n] eqn:Hrun.
  destruct (label_components_full h w v Hv lab n) as (k & Hk0 & Hkn & ->);
    [lia|lia|done|].
  rewrite !fmap_replicate.
  rewrite bool_decide_eq_false_2.
  - cbn [negb]. rewrite !zip_with_replicate. by rewrite Z.mul_1_r.
  - intros (a & Ha & Hle)%elem_of_where_le_inv.
    rewrite list_lookup_fmap, lookup_seq_lt in Ha by done. simpl in Ha.
    injection Ha as <-. rewrite count2_replicate in Hle. lia.
Qed.

Lemma full_mask_is_unchanged_witness :
  1 ≤ 255 ≤ 255 ∧ (N_PIXELS_THRES < 10 * 20)%nat
  ∧ _remove_mask_outliers (replicate 10 (replicate 20 255))
    = replicate 10 (replicate 20 255).
Proof.
  assert (1 ≤ 255 ≤ 255) as Hv by lia.
  assert (N_PIXELS_THRES < 10 * 20)%nat as Hbig by (unfold N_PIXELS_THRES; lia).
  split; [exact Hv|]. split; [exact Hbig|].
  exact (full_mask_is_unchanged 10 20 255 Hv Hbig).
Defined.

(** ** Layer compositor: pixels that no footprint covers *)

Lemma plot_highways_seg_map (m m' : raster) hws r c x :
  plot_highways "seg_map" _get_highway_color m hws = Ok m' →
  get2 m r c = Some x →
  get2 m' r c
  = Some (if bool_decide (Exists (λ hw, (r, c) ∈ cover hw) hws) then 1 else x).
Proof.
  revert m x. induction hws as [|hw hws IH]; intros m x; cbn [plot_highways].
  - by intros [= <-] ->.
  - intros Hrun Hx.
    rewrite (IH _ _ Hrun (get2_fill _ _ _ _ _ _ Hx)). f_equal.
    repeat case_bool_decide; try done; exfalso;
      match goal with
      | H : ¬ Exists _ (_ :: _) |- _ => apply H, Exists_cons; tauto
      | H : Exists _ (_ :: _) |- _ => apply Exists_cons in H; tauto
      end.
Qed.

(** X20: without a tile image, a pixel of the bounding box that no
    footprint covers is 4 in the height field, and in the segmentation map
    it is 1 when a highway covers it and 6 (ground) otherwise; it is 0 in
    the contour when no outline of a footprint with a [building] tag
    passes through it. *)
Theorem pixel_without_footprint (int_float_half : string → option Z)
    (cv2_resize : raster → nat * nat → raster)
    (highways footprints : list feature) (xy_bounds : nat * nat)
    (height_field seg_map contour : raster) (r c : nat) :
  get_osm_images int_float_half cv2_resize highways footprints xy_bounds None
  = Ok (height_field, seg_map, contour) →
  (r < xy_bounds.1)%nat → (c < xy_bounds.2)%nat →
  (∀ fp, fp ∈ footprints → (r, c) ∉ cover fp) →
  ((∀ fp, fp ∈ footprints → (r, c) ∈ outline fp →
          tags fp !! "building" = None) →
   get2 contour r c = Some 0)
  ∧ get2 height_field r c = Some 4
  ∧ get2 seg_map r c
    = Some (if bool_decide (Exists (λ hw, (r, c) ∈ cover hw) highways)
            then 1 else 6).
Proof.
  unfold get_osm_images, compose_height_field, seg_map_before_footprints.
  intros Hrun Hr Hc Hfree.
  assert (get2 (get_empty_map xy_bounds.1 xy_bounds.2) r c = Some 0) as He
    by by apply get2_replicate.
  assert (∀ (name : string) (colors : string → tagmap → result (option Z)),
            ∀ fp, fp ∈ footprints → (r, c) ∈ cover fp →
            colors name (tags fp) = Ok None) as Hfree'.
  { intros name colors fp Hfp Hin. by destruct (Hfree fp Hfp). }
  destruct (plot_highways "seg_map" _ _ _) as [s0|] eqn:H0; [|done].
  simpl in Hrun.
  destruct (plot_footprints "seg_map" _ _ _) as [s1|] eqn:H1; [|done].
  simpl in Hrun.
  destruct (plot_footprint_outlines "footprint_contour" _ _ _) as [ct|] eqn:H2;
    [|done].
  simpl in Hrun.
  destruct (height_field_before_footprints _ _ _ _) as [h0|] eqn:H3; [|done].
  simpl in Hrun.
  destruct (plot_footprints "height_field" _ _ _) as [h1|] eqn:H4; [|done].
  simpl in Hrun. injection Hrun as <- <- <-.
  split; [|split].
  - intros Hout. rewrite plot_footprint_outlines_stroked in H2.
    destruct (plot_footprints_Some _ _ _ _ _ r c H2) as [b Hb]; [eauto|].
    destruct (plot_footprints_value _ _ _ _ _ _ _ _ H2 Hb)
      as [He'|(fp' & Hin & Hcov & Hcol)]; [congruence|].
    apply list_elem_of_fmap in Hin as (fp & -> & Hin). simpl in Hcov, Hcol.
    specialize (Hout fp Hin Hcov).
    unfold _get_footprint_color in Hcol.
    rewrite !decide_False in Hcol by done. rewrite decide_True in Hcol by done.
    unfold _tag_equals in Hcol. rewrite Hout in Hcol.
    injection Hcol as <-. exact Hb.
  - destruct (row_lengths_get2 (get_empty_map xy_bounds.1 xy_bounds.2) h0 r c)
      as [x Hx]; [|eauto|].
    { rewrite (height_field_before_footprints_row_lengths _ _ _ _ _ H3).
      apply row_lengths_get_empty_map. }
    pose proof (height_field_before_footprints_value _ _ _ _ _ _ _ _ H3 Hx) as ->.
    eapply plot_footprints_untouched; [exact H4|exact Hx|]. apply Hfree'.
  - pose proof (plot_highways_seg_map _ _ _ _ _ _ H0 He) as Hs0.
    rewrite get2_replace_eq.
    rewrite (plot_footprints_untouched _ _ _ _ _ _ _ _ H1 Hs0 (Hfree' _ _)).
    simpl. by destruct (bool_decide _).
Qed.

Lemma pixel_without_footprint_witness :
  let highways := [Feature ∅ [(0, 0)%nat] [(0, 0)%nat]] in
  let building : tagmap := {[ "building" := "yes"; "height" := "12" ]} in
  let footprints := [Feature building [(1, 1)%nat] [(1, 1)%nat]] in
  get_osm_images (λ _, Some 12) (λ m _, m) highways footprints (2, 2)%nat None
  = Ok ([[4; 4]; [4; 12]], [[1; 6]; [6; 2]], [[0; 0]; [0; 1]])
  ∧ get2 [[0; 0]; [0; 1]] 0 0 = Some 0
  ∧ get2 [[4; 4]; [4; 12]] 0 0 = Some 4.
Proof.
  intros highways building footprints.
  assert (get_osm_images (λ _, Some 12) (λ m _, m) highways footprints
            (2, 2)%nat None
          = Ok ([[4; 4]; [4; 12]], [[1; 6]; [6; 2]], [[0; 0]; [0; 1]])) as Hrun
    by (vm_compute; reflexivity).
  split; [exact Hrun|].
  destruct (pixel_without_footprint _ _ _ _ _ _ _ _ 0%nat 0%nat Hrun)
    as (Hc & Hh & _).
  - simpl. lia.
  - simpl. lia.
  - intros fp Hfp%list_elem_of_singleton Hin. subst fp. simpl in Hin.
    apply list_elem_of_singleton in Hin. discriminate Hin.
  - split; [|exact Hh]. apply Hc.
    intros fp Hfp%list_elem_of_singleton Hin. subst fp. simpl in Hin.
    apply list_elem_of_singleton in Hin. discriminate Hin.
Defined.

(** ** Tile fetcher: one sleep for every download *)

Section FetcherClock.
Import TileFetcher.
Variable server : nat → fetch_outcome.

Lemma get_tile_img_clock (w : world) :
  slept w = attempts w → (logged w ≤ attempts w)%nat →
  slept (get_tile_img server w).2 = attempts (get_tile_img server w).2
  ∧ (logged (get_tile_img server w).2 ≤ attempts (get_tile_img server w).2)%nat
  ∧ (attempts w ≤ attempts (get_tile_img server w).2)%nat
  ∧ (disk w = None → attempts (get_tile_img server w).2 = S (attempts w)).
Proof.
  intros Hs Hl. unfold get_tile_img. cbn [snd].
  destruct (disk w); [by repeat split; [..|lia|]|].
  destruct (server (attempts w)); cbn [slept attempts logged];
    repeat split; lia.
Qed.

(** X21: whatever the server answers, a fetch that starts without the
    tile file and returns has made at least one download, has slept
    exactly once for every download it made, and has logged at most one
    exception per download. *)
Theorem fetch_sleeps_once_per_download (fuel : nat) (w w' : world)
    (img : bgr_image) :
  disk w = None → slept w = attempts w → (logged w ≤ attempts w)%nat →
  fetch_patch server fuel w = Some (img, w') →
  (attempts w < attempts w')%nat
  ∧ slept w' = attempts w'
  ∧ (logged w' ≤ attempts w')%nat.
Proof.
  intros Hd Hs Hl Hrun.
  assert (∀ fuel w, slept w = attempts w → (logged w ≤ attempts w)%nat →
            fetch_patch server fuel w = Some (img, w') →
            (attempts w ≤ attempts w')%nat ∧ slept w' = attempts w'
            ∧ (logged w' ≤ attempts w')%nat) as Hgen.
  { clear. induction fuel as [|fuel IH]; intros w Hs Hl; [done|].
    rewrite fetch_patch_S.
    destruct (get_tile_img_clock w Hs Hl) as (Hs1 & Hl1 & Ha1 & _).
    destruct (get_tile_img server w) as [[im|] w1]; cbn [snd] in *.
    - intros [= <- <-]. done.
    - intros Hrun. destruct (IH w1 Hs1 Hl1 Hrun) as (? & ? & ?).
      repeat split; [lia|done..]. }
  destruct fuel as [|fuel]; [done|]. rewrite fetch_patch_S in Hrun.
  destruct (get_tile_img_clock w Hs Hl) as (Hs1 & Hl1 & _ & Ha1).
  specialize (Ha1 Hd).
  destruct (get_tile_img server w) as [[im|] w1]; cbn [snd] in *.
  - injection Hrun as <- <-. repeat split; [lia|done..].
  - destruct (Hgen fuel w1 Hs1 Hl1 Hrun) as (? & ? & ?).
    repeat split; [lia|done..].
Qed.
End FetcherClock.

Lemma fetch_sleeps_once_per_download_witness :
  let server := λ n : nat,
    if decide (n < 2)%nat then TileFetcher.GetRaises
    else TileFetcher.CopyRaises (Some water_tile) in
  TileFetcher.fetch_patch server 3 TileFetcher.fresh
  = Some (water_tile, TileFetcher.World (Some (Some water_tile)) 3 3 3)
  ∧ (0 < 3)%nat.
Proof.
  intros server.
  assert (TileFetcher.fetch_patch server 3 TileFetcher.fresh
          = Some (water_tile, TileFetcher.World (Some (Some water_tile)) 3 3 3))
    as Hrun by reflexivity.
  split; [exact Hrun|].
  exact (proj1 (fetch_sleeps_once_per_download server 3 TileFetcher.fresh _
                  water_tile eq_refl eq_refl (le_n 0) Hrun)).
Defined.

(** ** Patch extraction and voxel centre *)

(** X22: inside the raster the pixel of the camera target, cast to
    [int32], sits at index [patch_size // 2] of the patch (unchanged when
    the values of the raster fit [int32]), while the cameras are placed
    around the voxel centre [(patch_size - 1) // 2]; the two indexes agree
    exactly when [patch_size] is odd, and for an even size the voxel
    centre is one less than the index of the target. *)
Theorem target_index_and_voxel_centre (img : raster) (cx cy patch_size : Z) :
  Forall (λ row, length row = (shape img).2) img →
  2 ≤ patch_size →
  0 ≤ cx - patch_size / 2 → cx + patch_size / 2 < Z.of_nat (shape img).2 →
  0 ≤ cy - patch_size / 2 → cy + patch_size / 2 < Z.of_nat (shape img).1 →
  get2 (_get_img_patch img cx cy patch_size).1
    (Z.to_nat (patch_size / 2)) (Z.to_nat (patch_size / 2))
  = np_int32 <$> get2 img (Z.to_nat cy) (Z.to_nat cx)
  ∧ (int32_raster img →
     get2 (_get_img_patch img cx cy patch_size).1
       (Z.to_nat (patch_size / 2)) (Z.to_nat (patch_size / 2))
     = get2 img (Z.to_nat cy) (Z.to_nat cx))
  ∧ (Qeq (vol_center patch_size).1.1 (inject_Z (patch_size / 2))
     ↔ patch_size `mod` 2 = 1)
  ∧ (patch_size `mod` 2 = 0 →
     Qeq (vol_center patch_size).1.1 (inject_Z (patch_size / 2 - 1))
     ∧ Qeq (vol_center patch_size).1.2 (inject_Z (patch_size / 2 - 1))).
Proof.
  intros Hrect Hps Hxs Hxe Hys Hye.
  pose proof (Z.div_mod patch_size 2 ltac:(lia)) as Hd.
  pose proof (Z.mod_pos_bound patch_size 2 ltac:(lia)) as Hm.
  pose proof (Z.div_mod (patch_size - 1) 2 ltac:(lia)) as Hd1.
  pose proof (Z.mod_pos_bound (patch_size - 1) 2 ltac:(lia)) as Hm1.
  assert (get2 (_get_img_patch img cx cy patch_size).1
            (Z.to_nat (patch_size / 2)) (Z.to_nat (patch_size / 2))
          = np_int32 <$> get2 img (Z.to_nat cy) (Z.to_nat cx)) as Hget.
  { rewrite (patch_inside_lookup img cx cy patch_size _ _ Hrect ltac:(lia)
               Hxs Hxe Hys Hye) by lia.
    do 2 f_equal; lia. }
  split; [exact Hget|]. split.
  - intros Hint. rewrite Hget. by apply fmap_np_int32_get2.
  - unfold vol_center. cbn [fst snd]. split.
    + rewrite inject_Z_injective. lia.
    + intros Heven. split; apply inject_Z_injective; lia.
Qed.

Lemma target_index_and_voxel_centre_witness :
  let img := blob_in 10 10 5 5 1 1 in
  Forall (λ row, length row = (shape img).2) img
  ∧ get2 (_get_img_patch img 5 5 6).1 3 3 = get2 img 5 5
  ∧ Qeq (vol_center 6).1.1 (inject_Z 2).
Proof.
  intros img.
  assert (Forall (λ row, length row = (shape img).2) img) as Hrect.
  { apply Forall_forall. intros row Hrow. unfold img, blob_in in Hrow.
    apply elem_of_lookup_imap in Hrow as (r & [] & -> & _).
    rewrite length_imap, length_replicate. reflexivity. }
  split; [exact Hrect|].
  destruct (target_index_and_voxel_centre img 5 5 6 Hrect)
    as (_ & Hsame & _ & Heven);
    [vm_compute; discriminate | vm_compute; discriminate
    | vm_compute; reflexivity | vm_compute; discriminate
    | vm_compute; reflexivity |].
  split.
  - exact (Hsame (uint8_int32_raster _ (uint8_blob_in _ _ _ _ _ _))).
  - exact (proj1 (Heven eq_refl)).
Defined.

(** ** Google Earth projects of an OSM file *)

Lemma split_dash_not_nil s : split_dash s ≠ [].
Proof.
  destruct s as [|ch s]; simpl; [done|].
  destruct (decide (ch = dash)); [done|]. by destruct (split_dash s).
Qed.

Lemma split_dash_free s :
  dash ∉ String.list_ascii_of_string s → split_dash s = [s].
Proof.
  induction s as [|ch s IH]; simpl; [done|]. intros Hfree.
  rewrite decide_False by (intros ->; apply Hfree; left).
  rewrite IH; [done|]. intros Hin. apply Hfree. by right.
Qed.

Lemma split_dash_app a t :
  dash ∉ String.list_ascii_of_string a →
  split_dash (a +:+ String dash t) = a :: split_dash t.
Proof.
  induction a as [|ch a IH]; simpl; intros Hfree.
  - by destruct (decide (dash = dash)).
  - rewrite decide_False by (intros ->; apply Hfree; left).
    rewrite IH; [done|]. intros Hin. apply Hfree. by right.
Qed.

Lemma split_dash_two s :
  dash ∈ String.list_ascii_of_string s → ∃ a b rest, split_dash s = a :: b :: rest.
Proof.
  induction s as [|ch s IH]; simpl; [by intros ?%elem_of_nil|].
  intros Hin. destruct (decide (ch = dash)) as [->|Hne].
  - destruct (split_dash s) as [|b rest] eqn:Hs; [by apply split_dash_not_nil in Hs|].
    eauto.
  - apply elem_of_cons in Hin as [?|Hin]; [done|].
    destruct (IH Hin) as (a & b & rest & ->). eauto.
Qed.

(** X23: looking up the Google Earth projects of an OSM file fails with an
    index error exactly when the base name of the file has no dash. *)
Theorem projects_need_a_dash (osm_basename : string) (ge_projects : list string) :
  get_google_earth_projects osm_basename ge_projects = Raise IndexError
  ↔ dash ∉ String.list_ascii_of_string osm_basename.
Proof.
  unfold get_google_earth_projects. split.
  - intros Hraise Hin. destruct (split_dash_two _ Hin) as (a & b & rest & Hs).
    by rewrite Hs in Hraise.
  - intros Hfree. by rewrite (split_dash_free _ Hfree).
Qed.

(** X24: only the first two dash-separated fields of the base name count:
    whatever follows them, the projects returned are those of the listing,
    in its order, whose name starts with "country-city". *)
Theorem projects_depend_on_two_fields (country city rest : string)
    (ge_projects : list string) :
  dash ∉ String.list_ascii_of_string country →
  dash ∉ String.list_ascii_of_string city →
  get_google_earth_projects (country +:+ "-" +:+ city +:+ "-" +:+ rest) ge_projects
  = Ok (filter (λ gp, String.prefix (country +:+ "-" +:+ city) gp = true)
          ge_projects)
  ∧ get_google_earth_projects (country +:+ "-" +:+ city) ge_projects
    = Ok (filter (λ gp, String.prefix (country +:+ "-" +:+ city) gp = true)
            ge_projects).
Proof.
  intros Hc Hy. unfold get_google_earth_projects. split.
  - change (country +:+ "-" +:+ city +:+ "-" +:+ rest)
      with (country +:+ String dash (city +:+ String dash rest)).
    rewrite (split_dash_app country), (split_dash_app city) by done.
    reflexivity.
  - change (split_dash (country +:+ "-" +:+ city))
      with (split_dash (country +:+ String dash city)).
    rewrite (split_dash_app country), (split_dash_free city) by done.
    reflexivity.
Qed.

Lemma projects_depend_on_two_fields_witness :
  get_google_earth_projects "US-NewYork-0001"
    ["US-NewYork-a"; "JP-Tokyo-b"; "US-NewYorkCity"]
  = Ok ["US-NewYork-a"; "US-NewYorkCity"].
Proof.
  destruct (projects_depend_on_two_fields "US" "NewYork" "0001"
              ["US-NewYork-a"; "JP-Tokyo-b"; "US-NewYorkCity"]) as [Hlong _].
  - vm_compute. intros Hin. repeat (apply elem_of_cons in Hin as [Hin|Hin]; [discriminate Hin|]).
    by apply elem_of_nil in Hin.
  - vm_compute. intros Hin. repeat (apply elem_of_cons in Hin as [Hin|Hin]; [discriminate Hin|]).
    by apply elem_of_nil in Hin.
  - exact Hlong.
Defined.
